(** * Streaming dispatch of [pgf/analysis/analysis.py]

    A shallow embedding of the class [Analysis] of the Password Guessing
    Framework: the read loops of [execute] (plaintext candidates and
    John-the-Ripper status lines), [handle_close] and [kill_guesser].

    Python values are modelled as follows.
    - [str] (Python 2 byte strings) is [string]; [int] is [Z].
    - [None] or a value is [option].
    - [self.received_candidates] is a [list (option string)]: it starts as
      [[None] * analysis_interval] and is overwritten slot by slot; the very
      same list is handed to [process_candidates] at every flush, so the
      model keeps the one buffer in the state and records, for every call,
      the contents the callee sees at the moment of the call.
    - the calls made on [self.analysisscheme] and on [kill_guesser] are
      recorded, in order, in the field [calls].
    - an uncaught Python exception ends the run with [Failed]. *)

From Stdlib Require Import ZArith Lia Bool String Ascii Sorted.
From stdpp Require Import base list.

Open Scope Z_scope.

(** ** Python strings *)

Module Py.

(** [s[:-k]] for a positive literal [k]: everything but the last [k]
    characters, the empty string when [s] is not longer than [k]. *)
Definition slice_to_neg (k : nat) (s : string) : string :=
  String.substring 0 (String.length s - k) s.

(** [sub in s] *)
Fixpoint contains (sub s : string) : bool :=
  if String.prefix sub s then true
  else match s with
       | EmptyString => false
       | String _ rest => contains sub rest
       end.

Definition is_digit (c : ascii) : bool :=
  let n := nat_of_ascii c in ((48 <=? n) && (n <=? 57))%nat.

(** [\s] of the [re] module on a byte string without flags:
    space, [\t], [\n], [\v], [\f], [\r]. *)
Definition is_space (c : ascii) : bool :=
  let n := nat_of_ascii c in
  ((n =? 32) || (n =? 9) || (n =? 10) || (n =? 11) || (n =? 12) || (n =? 13))%nat.

Definition digit_value (c : ascii) : Z := Z.of_nat (nat_of_ascii c) - 48.

Fixpoint int_digits (acc : Z) (s : string) : option Z :=
  match s with
  | EmptyString => Some acc
  | String c rest =>
      if is_digit c then int_digits (10 * acc + digit_value c) rest else None
  end.

(** [int(s)] on the strings that reach it here (decimal digits only);
    [None] stands for [ValueError]. *)
Definition int (s : string) : option Z :=
  match s with
  | EmptyString => None
  | _ => int_digits 0 s
  end.

(** [l[i] = v] for [0 <= i]; [None] stands for [IndexError]. *)
Definition setitem {A} (l : list A) (i : Z) (v : A) : option (list A) :=
  if (0 <=? i) && (i <? Z.of_nat (length l))
  then Some (<[Z.to_nat i := v]> l)
  else None.

(** [del l[i]]: a negative index counts from the end; [None] stands for
    [IndexError]. *)
Definition delitem {A} (l : list A) (i : Z) : option (list A) :=
  let len := Z.of_nat (length l) in
  if (0 <=? i) && (i <? len) then Some (delete (Z.to_nat i) l)
  else if (- len <=? i) && (i <? 0) then Some (delete (Z.to_nat (len + i)) l)
  else None.

(** [range(start, stop, -1)]: [start, start - 1, ..., stop + 1]. *)
Definition range_down (start stop : Z) : list Z :=
  (fun k => start - Z.of_nat k) <$> seq 0 (Z.to_nat (start - stop)).

End Py.

(** ** The two regular expressions of [execute] *)

(** The rest of [s] after a greedy [[0-9]*]. *)
Fixpoint skip_digits (s : string) : string :=
  match s with
  | String c rest => if Py.is_digit c then skip_digits rest else s
  | EmptyString => s
  end.

(** The text consumed by a greedy [[0-9]*]. *)
Fixpoint take_digits (s : string) : string :=
  match s with
  | String c rest =>
      if Py.is_digit c then String c (take_digits rest) else EmptyString
  | EmptyString => EmptyString
  end.

(** Whether [s] begins with the character [ch]. *)
Definition starts_with (ch : ascii) (s : string) : bool :=
  match s with
  | String c _ => Ascii.eqb c ch
  | EmptyString => false
  end.

(** [status_line_re.match(line)] with
    [status_line_re = re.compile('^[0-9]*g\s[0-9]*p')].  The character that
    has to follow each [[0-9]*] is not a digit, so the greedy run of digits
    is the only way to match and no backtracking is involved. *)
Definition status_line_re_match (line : string) : bool :=
  match skip_digits line with
  | String g (String c rest) =>
      Ascii.eqb g "g" && Py.is_space c && starts_with "p" (skip_digits rest)
  | _ => false
  end.

(** A match of [[0-9]*p] that starts at the first character of [s]. *)
Definition digits_p_at (s : string) : option string :=
  if starts_with "p" (skip_digits s)
  then Some (take_digits s ++ "p")%string
  else None.

(** [candidates_processed_re.findall(line)[0]] with
    [candidates_processed_re = re.compile('[0-9]*p')]: the leftmost match;
    [None] stands for the [IndexError] of indexing an empty result. *)
Fixpoint candidates_processed_re_first (line : string) : option string :=
  match digits_p_at line with
  | Some m => Some m
  | None =>
      match line with
      | EmptyString => None
      | String _ rest => candidates_processed_re_first rest
      end
  end.

(** ** The analysis object *)

Inductive filetype_t := plaintext | hashvalues.

(** The attributes set once by [__init__]. *)
Record Job := {
  filetype : filetype_t;
  guesser_pid : Z;
  analysis_interval : Z;
  terminate_guessing : option Z;
}.

(** A call that leaves [execute]: one of the three entry points of
    [self.analysisscheme], or [self.kill_guesser()]. *)
Inductive call :=
  | ProcessCandidates (batch : list (option string))
  | ProcessStatusLine (line : string)
  | GenReport
  | KillGuesser.

Inductive exn :=
  | IndexError | ValueError | UnboundLocalError
  | NoSuchProcess | AccessDenied | OSError.

(** The attributes written by [execute] and [handle_close], the local
    variable [line] of [execute] ([None] while it is unbound) and the calls
    made so far. *)
Record Analysis := {
  received_candidates : list (option string);
  index : Z;
  candidate_counter : Z;
  line : option string;
  calls : list call;
}.

Definition set_received_candidates (v : list (option string)) (self : Analysis) :=
  {| received_candidates := v; index := index self;
     candidate_counter := candidate_counter self; line := line self;
     calls := calls self |}.

Definition set_index (v : Z) (self : Analysis) :=
  {| received_candidates := received_candidates self; index := v;
     candidate_counter := candidate_counter self; line := line self;
     calls := calls self |}.

Definition set_candidate_counter (v : Z) (self : Analysis) :=
  {| received_candidates := received_candidates self; index := index self;
     candidate_counter := v; line := line self; calls := calls self |}.

Definition set_line (v : string) (self : Analysis) :=
  {| received_candidates := received_candidates self; index := index self;
     candidate_counter := candidate_counter self; line := Some v;
     calls := calls self |}.

Definition do_call (c : call) (self : Analysis) :=
  {| received_candidates := received_candidates self; index := index self;
     candidate_counter := candidate_counter self; line := line self;
     calls := calls self ++ [c] |}.

(** How one pass through the body of a [for] loop ends. *)
Inductive control :=
  | Next (self : Analysis)
  | Break (self : Analysis)
  | Return (self : Analysis)
  | Raise (e : exn) (self : Analysis).

(** How a run ends. *)
Inductive outcome :=
  | Finished (self : Analysis)
  | Failed (e : exn) (self : Analysis).

(** [for x in sys.stdin: body]; [Next] is the exhausted stream. *)
Fixpoint for_each (body : string -> Analysis -> control)
    (stdin : list string) (self : Analysis) : control :=
  match stdin with
  | [] => Next self
  | x :: rest =>
      match body x self with
      | Next self' => for_each body rest self'
      | stop => stop
      end
  end.

(** The states in which the passes through the body end, in order. *)
Fixpoint visited (body : string -> Analysis -> control)
    (stdin : list string) (self : Analysis) : list Analysis :=
  match stdin with
  | [] => []
  | x :: rest =>
      match body x self with
      | Next self' => self' :: visited body rest self'
      | Break self' | Return self' | Raise _ self' => [self']
      end
  end.

(** Lines 112-114. *)
Definition execute_init (job : Job) : Analysis :=
  {| received_candidates := replicate (Z.to_nat (analysis_interval job)) None;
     index := 0; candidate_counter := 0; line := None; calls := [] |}.

(** [(self.terminate_guessing is not None) and (count == self.terminate_guessing)] *)
Definition ceiling_hit (job : Job) (count : Z) : bool :=
  match terminate_guessing job with
  | Some ceiling => count =? ceiling
  | None => false
  end.

(** [(self.terminate_guessing is not None) and (count >= self.terminate_guessing)] *)
Definition ceiling_passed (job : Job) (count : Z) : bool :=
  match terminate_guessing job with
  | Some ceiling => count >=? ceiling
  | None => false
  end.

(** Lines 120-130, the body of the plaintext loop. *)
Definition plaintext_body (job : Job) (candidate : string) (self : Analysis) : control :=
  match Py.setitem (received_candidates self) (index self)
          (Some (Py.slice_to_neg 1 candidate)) with
  | None => Raise IndexError self
  | Some buffer =>
      let self := set_received_candidates buffer self in
      let self := set_candidate_counter (candidate_counter self + 1) self in
      let self := set_index (index self + 1) self in
      if ceiling_hit job (candidate_counter self) then
        Break (do_call KillGuesser self)
      else if index self =? analysis_interval job then
        Next (set_index 0 (do_call (ProcessCandidates (received_candidates self)) self))
      else Next self
  end.

(** [del self.received_candidates[i]] for every [i] of [indices], in order. *)
Fixpoint del_each (indices : list Z) (l : list (option string))
    : option (list (option string)) :=
  match indices with
  | [] => Some l
  | i :: rest =>
      match Py.delitem l i with
      | Some l' => del_each rest l'
      | None => None
      end
  end.

(** Lines 202-212. *)
Definition handle_close (job : Job) (last_line : option string)
    (self : Analysis) : outcome :=
  match filetype job with
  | plaintext =>
      if index self >? 0 then
        match del_each (Py.range_down (analysis_interval job - 1) (index self - 1))
                (received_candidates self) with
        | None => Failed IndexError self
        | Some buffer =>
            let self := set_received_candidates buffer self in
            let self := do_call (ProcessCandidates (received_candidates self)) self in
            let self := set_index 0 self in
            Finished (do_call GenReport self)
        end
      else Finished (do_call GenReport self)
  | hashvalues =>
      match last_line with
      | Some l => Finished (do_call GenReport (do_call (ProcessStatusLine l) self))
      | None => Finished (do_call GenReport self)
      end
  end.

(** Lines 147-149: [temp = findall(line)[0]], [temp = temp[:-4] + '000'],
    [int(temp)], with the exception each step can raise. *)
Definition coarse_count (l : string) : exn + Z :=
  match candidates_processed_re_first l with
  | None => inl IndexError
  | Some temp =>
      match Py.int (Py.slice_to_neg 4 temp ++ "000")%string with
      | None => inl ValueError
      | Some count => inr count
      end
  end.

(** Lines 137-154, the body of the status-line loop. *)
Definition hash_body (job : Job) (l : string) (self : Analysis) : control :=
  let self := set_line l self in
  if negb (status_line_re_match l) then
    if Py.contains "Session completed" l then
      let self :=
        match terminate_guessing job with
        | Some _ => do_call KillGuesser self
        | None => self
        end in
      match handle_close job None self with
      | Finished self => Return self
      | Failed e self => Raise e self
      end
    else Next self
  else
    match coarse_count l with
    | inl e => Raise e self
    | inr count =>
        let self := set_candidate_counter count self in
        if ceiling_passed job (candidate_counter self) then
          Break (do_call KillGuesser self)
        else Next (do_call (ProcessStatusLine l) self)
    end.

(** Lines 109-155.  The plaintext loop is taken when
    [self.filetype == 'plaintext'], the status-line loop otherwise; after
    the status-line loop [handle_close(last_line=line)] reads the local
    [line], which is unbound when the loop body never ran. *)
Definition execute (job : Job) (stdin : list string) : outcome :=
  let self := execute_init job in
  match filetype job with
  | plaintext =>
      match for_each (plaintext_body job) stdin self with
      | Next self | Break self => handle_close job None self
      | Return self => Finished self
      | Raise e self => Failed e self
      end
  | hashvalues =>
      match for_each (hash_body job) stdin self with
      | Next self | Break self =>
          match line self with
          | Some l => handle_close job (Some l) self
          | None => Failed UnboundLocalError self
          end
      | Return self => Finished self
      | Raise e self => Failed e self
      end
  end.

Definition calls_of (o : outcome) : list call :=
  match o with
  | Finished self | Failed _ self => calls self
  end.

(** The batches handed to [process_candidates], in order. *)
Definition batches (cs : list call) : list (list (option string)) :=
  omap (fun c => match c with ProcessCandidates b => Some b | _ => None end) cs.

(** The lines handed to [process_status_line], in order. *)
Definition status_lines (cs : list call) : list string :=
  omap (fun c => match c with ProcessStatusLine l => Some l | _ => None end) cs.

Definition is_gen_report (c : call) : bool :=
  match c with GenReport => true | _ => false end.

Definition is_kill_guesser (c : call) : bool :=
  match c with KillGuesser => true | _ => false end.

Definition count_calls (p : call -> bool) (cs : list call) : nat :=
  length (filter (fun c => p c = true) cs).

(** ** [kill_guesser] *)

(** What [kill_guesser] asks of [psutil] and [os]:
    - whether [psutil.Process(pid)] finds the process ([false]: it raises
      [psutil.NoSuchProcess]);
    - the result of [p.children(recursive=True)], or of
      [p.get_children(recursive=True)] with psutil 1, in the order psutil
      lists the descendants ([None]: it raises [psutil.NoSuchProcess]);
    - what reading [child.name] for the log line raises: nothing with
      psutil 2 and later, where it is a bound method; with psutil 1 it is a
      property that reads the process and raises [psutil.NoSuchProcess] for
      a process that is gone, or [psutil.AccessDenied];
    - whether [os.kill(pid, signal.SIGKILL)] succeeds ([false]: it raises
      [OSError], as for a process that is gone or not owned). *)
Record process_table := {
  psutil_Process : Z -> bool;
  children_recursive : Z -> option (list Z);
  child_name : Z -> option exn;
  os_kill : Z -> bool;
}.

(** The process ids [os.kill] was called on, in order, and the exception
    caught and logged by the outer [except Exception], if any. *)
Record kill_report := {
  signalled : list Z;
  logged : option exn;
}.

(** Lines 185-187: the loop over [children]; an exception of the log line
    or of [os.kill] leaves the loop. *)
Fixpoint kill_children (os : process_table) (children : list Z) (sent : list Z)
    : list Z * option exn :=
  match children with
  | [] => (sent, None)
  | child :: rest =>
      match child_name os child with
      | Some e => (sent, Some e)
      | None =>
          if os_kill os child then kill_children os rest (sent ++ [child])%list
          else ((sent ++ [child])%list, Some OSError)
      end
  end.

(** Lines 174-194.  When [psutil.Process] raises, [p] stays unbound and the
    next use of [p] raises [UnboundLocalError]; the inner [except] catches
    [psutil.NoSuchProcess] only, after which the root is signalled; every
    other exception reaches the outer [except Exception], which logs it. *)
Definition kill_guesser (os : process_table) (pid : Z) : kill_report :=
  let p := if psutil_Process os pid then Some pid else None in
  let inner :=
    match p with
    | None => ([], Some UnboundLocalError)
    | Some p =>
        match children_recursive os p with
        | None => ([], Some NoSuchProcess)
        | Some children => kill_children os children []
        end
    end in
  match inner with
  | (sent, None) | (sent, Some NoSuchProcess) =>
      if os_kill os pid then {| signalled := (sent ++ [pid])%list; logged := None |}
      else {| signalled := (sent ++ [pid])%list; logged := Some OSError |}
  | (sent, Some e) => {| signalled := sent; logged := Some e |}
  end.

(** The table of a root [root] that is found, with psutil 2 or later,
    where [p.children(recursive=True)] lists the processes [children], in
    that order, and [os.kill] fails exactly on the processes of [gone].
    The order in which psutil lists the descendants of a process is
    psutil's own and is not fixed here. *)
Definition listed_table (root : Z) (children gone : list Z) : process_table :=
  {| psutil_Process := fun pid => bool_decide (pid = root);
     children_recursive := fun _ => Some children;
     child_name := fun _ => None;
     os_kill := fun pid => bool_decide (pid ∉ gone) |}.

(** ** Vocabulary of the statements *)

(** ["\n"] *)
Definition nl : string := String (ascii_of_nat 10) EmptyString.

(** What line 120 writes into the buffer for the input line [candidate]. *)
Definition stored (candidate : string) : option string :=
  Some (Py.slice_to_neg 1 candidate).

(** The slots written since the last flush. *)
Definition live (self : Analysis) : list (option string) :=
  take (Z.to_nat (index self)) (received_candidates self).

Definition ceil_div (m n : Z) : Z := (m + n - 1) / n.

(** The ceiling is never hit by a stream of [m] candidates. *)
Definition never_hit (job : Job) (m : Z) : Prop :=
  match terminate_guessing job with
  | None => True
  | Some ceiling => ceiling < 1 \/ m < ceiling
  end.

(** The three cases lines 137-146 tell apart. *)
Inductive line_class :=
  | Progress (count : Z)
  | SessionComplete
  | Ignored.

Definition classify (l : string) : line_class :=
  if status_line_re_match l then
    match coarse_count l with
    | inr count => Progress count
    | inl _ => Ignored
    end
  else if Py.contains "Session completed" l then SessionComplete
  else Ignored.

(** The counts of the status lines of a stream, in order. *)
Definition progress_counts (stdin : list string) : list Z :=
  omap (fun l => match classify l with Progress n => Some n | _ => None end) stdin.

(** The values [self.candidate_counter] holds after each pass of a loop. *)
Definition counter_trace (body : string -> Analysis -> control)
    (stdin : list string) (self : Analysis) : list Z :=
  candidate_counter <$> visited body stdin self.

(** What the claim about the counter asks of the status-line loop, line by
    line, for a counter that holds [cur] before the first line: after a
    status line the counter is the coarse count of that line, after any
    other line it is what it was. *)
Fixpoint latest_counts (cur : Z) (stdin : list string) : list Z :=
  match stdin with
  | [] => []
  | l :: rest =>
      let cur' := match classify l with Progress count => count | _ => cur end in
      cur' :: latest_counts cur' rest
  end.

(** The lines of a stream that match [status_line_re], in order. *)
Definition progress_lines (stdin : list string) : list string :=
  filter (fun l => status_line_re_match l = true) stdin.

(** [kill_guesser()] is called when a ceiling is configured. *)
Definition kill_if_ceiling (job : Job) : list call :=
  match terminate_guessing job with
  | Some _ => [KillGuesser]
  | None => []
  end.

Fixpoint all_digits (s : string) : bool :=
  match s with
  | EmptyString => true
  | String c rest => Py.is_digit c && all_digits rest
  end.

(** The loop invariant of the plaintext loop after the lines [seen]: the
    buffer keeps its length, the write index stays below the interval, only
    full batches have been handed over, and the batches followed by the live
    slots are the candidates read so far. *)
Definition plain_inv (job : Job) (seen : list string) (self : Analysis) : Prop :=
  length (received_candidates self) = Z.to_nat (analysis_interval job) /\
  0 <= index self < analysis_interval job /\
  candidate_counter self = Z.of_nat (length seen) /\
  line self = None /\
  calls self = ProcessCandidates <$> batches (calls self) /\
  Forall (fun b => Z.of_nat (length b) = analysis_interval job) (batches (calls self)) /\
  concat (batches (calls self)) ++ live self = stored <$> seen.

(** The number a string of decimal digits denotes; the empty string
    denotes 0. *)
Fixpoint digits_acc (acc : Z) (s : string) : Z :=
  match s with
  | EmptyString => acc
  | String c rest => digits_acc (10 * acc + Py.digit_value c) rest
  end.

Definition digits_value (s : string) : Z := digits_acc 0 s.

Definition jtr_line : string :=
  "736g 4008p 0:00:00:04 152.0g/s 828.0p/s 828.0c/s 885086C/s carama..marcia".

(** A line the status-line loop passes without stopping: it is no
    [SessionComplete] line and, if it is a status line, its count has not
    reached the ceiling. *)
Definition runs_through (job : Job) (l : string) : Prop :=
  classify l <> SessionComplete /\
  forall count, classify l = Progress count -> ceiling_passed job count = false.

(** The same job started with [terminate_guessing] given as [None]. *)
Definition no_ceiling (job : Job) : Job :=
  {| filetype := filetype job; guesser_pid := guesser_pid job;
     analysis_interval := analysis_interval job; terminate_guessing := None |}.

(** Membership in a list put together by [++]: one case per part. *)
Ltac split_elem H :=
  repeat (apply elem_of_app in H as [H|H]);
  try (apply elem_of_nil in H; destruct H);
  try (apply list_elem_of_singleton in H; subst).

(** * Properties *)

(** ** Digits and the coarse count *)

Lemma is_space_not_digit c : Py.is_space c = true -> Py.is_digit c = false.
Proof.
  unfold Py.is_space, Py.is_digit. intros H.
  repeat (apply orb_prop in H as [H|H]);
    apply Nat.eqb_eq in H; rewrite H; reflexivity.
Qed.

Lemma is_space_not_p c : Py.is_space c = true -> Ascii.eqb c "p" = false.
Proof.
  intros H. destruct (Ascii.eqb_spec c "p") as [->|]; [discriminate H|reflexivity].
Qed.

Lemma all_digits_app a b :
  all_digits (a ++ b)%string = all_digits a && all_digits b.
Proof.
  induction a as [|c a IH]; simpl; [reflexivity|].
  rewrite IH. apply andb_assoc.
Qed.

Lemma string_length_app a b :
  String.length (a ++ b)%string = (String.length a + String.length b)%nat.
Proof. induction a as [|c a IH]; simpl; [reflexivity|]. rewrite IH. reflexivity. Qed.

Lemma take_digits_all s : all_digits (take_digits s) = true.
Proof.
  induction s as [|c s IH]; simpl; [reflexivity|].
  destruct (Py.is_digit c) eqn:E; simpl; [rewrite E; exact IH|reflexivity].
Qed.

Lemma int_digits_acc s : forall acc,
  all_digits s = true -> Py.int_digits acc s = Some (digits_acc acc s).
Proof.
  induction s as [|c s IH]; intros acc Hs; simpl in *; [reflexivity|].
  apply andb_prop in Hs as [-> Hs]. apply IH, Hs.
Qed.

Lemma digits_acc_app a b : forall acc,
  digits_acc acc (a ++ b)%string = digits_acc (digits_acc acc a) b.
Proof. induction a as [|c a IH]; intros acc; simpl; [reflexivity|]. apply IH. Qed.

Lemma digits_acc_shift s : forall acc,
  digits_acc acc s = acc * 10 ^ Z.of_nat (String.length s) + digits_acc 0 s.
Proof.
  induction s as [|c s IH]; intros acc; cbn [digits_acc String.length].
  - simpl. lia.
  - rewrite (IH (10 * acc + _)), (IH (10 * 0 + _)).
    rewrite Nat2Z.inj_succ, Z.pow_succ_r by lia. ring.
Qed.

Lemma digits_acc_bound s :
  all_digits s = true -> 0 <= digits_acc 0 s < 10 ^ Z.of_nat (String.length s).
Proof.
  induction s as [|c s IH]; intros Hs; cbn [digits_acc String.length].
  - simpl. lia.
  - simpl in Hs. apply andb_prop in Hs as [Hc Hs]. specialize (IH Hs).
    unfold Py.is_digit in Hc. apply andb_prop in Hc as [Hlo Hhi].
    apply Nat.leb_le in Hlo, Hhi.
    rewrite digits_acc_shift, Nat2Z.inj_succ, Z.pow_succ_r by lia.
    unfold Py.digit_value. nia.
Qed.

(** A prefix of [d], cut out of [d ++ t], and what is left of [d]. *)
Lemma substring_prefix_split k : forall d t,
  (k <= String.length d)%nat ->
  exists suf, d = (String.substring 0 k (d ++ t) ++ suf)%string /\
              String.length suf = (String.length d - k)%nat.
Proof.
  induction k as [|k IH]; intros d t Hk.
  - exists d. split; [|lia]. destruct (d ++ t)%string; reflexivity.
  - destruct d as [|c d]; simpl in Hk; [lia|].
    destruct (IH d t) as (suf & Hd & Hlen); [lia|].
    exists suf. simpl. rewrite <- Hd. auto.
Qed.

(** Lines 148-149 on a run of digits [d] followed by [p]: the number [d]
    denotes, rounded down to a multiple of 1000; 0 when [d] has fewer than
    four digits. *)
Lemma coarse_digits d :
  all_digits d = true ->
  Py.int (Py.slice_to_neg 4 (d ++ "p") ++ "000") =
    Some (1000 * (digits_value d / 1000)).
Proof.
  intros Hd. unfold Py.slice_to_neg. rewrite string_length_app.
  simpl String.length.
  replace (String.length d + 1 - 4)%nat with (String.length d - 3)%nat by lia.
  destruct (substring_prefix_split (String.length d - 3) d "p") as (suf & Hsplit & Hlen);
    [lia|].
  set (pre := String.substring 0 (String.length d - 3) (d ++ "p")) in *.
  assert (Hall : all_digits pre = true /\ all_digits suf = true).
  { rewrite Hsplit, all_digits_app in Hd. apply andb_prop in Hd. exact Hd. }
  destruct Hall as [Hpre Hsuf].
  assert (Hint : Py.int (pre ++ "000") = Some (1000 * digits_value pre)).
  { unfold Py.int. destruct (pre ++ "000")%string eqn:E.
    - destruct pre; discriminate E.
    - rewrite <- E, int_digits_acc by (rewrite all_digits_app, Hpre; reflexivity).
      rewrite digits_acc_app. unfold digits_value. simpl. f_equal.
      change (Py.digit_value "0") with 0. lia. }
  rewrite Hint. f_equal. f_equal.
  assert (Hshort : (String.length d < 3)%nat -> pre = EmptyString).
  { intros Hlt. subst pre. replace (String.length d - 3)%nat with 0%nat by lia.
    destruct (d ++ "p")%string; reflexivity. }
  clearbody pre. unfold digits_value.
  assert (Hv : digits_acc 0 d =
               digits_acc 0 pre * 10 ^ Z.of_nat (String.length suf) + digits_acc 0 suf).
  { rewrite Hsplit, digits_acc_app. apply digits_acc_shift. }
  pose proof (digits_acc_bound suf Hsuf) as Hb.
  pose proof (digits_acc_bound pre Hpre) as Hp.
  rewrite Hv. destruct (Nat.le_gt_cases 3 (String.length d)) as [Hge|Hlt].
  - replace (String.length suf) with 3%nat in * by lia.
    change (10 ^ Z.of_nat 3) with 1000 in *.
    apply (Z.div_unique_pos _ _ _ (digits_acc 0 suf)); lia.
  - rewrite (Hshort Hlt). simpl digits_acc at 1 2.
    assert (10 ^ Z.of_nat (String.length suf) <= 100).
    { assert (Hs : (String.length suf <= 2)%nat) by lia.
      destruct (String.length suf) as [|[|[|?]]]; simpl; lia. }
    symmetry. apply Z.div_small. lia.
Qed.

(** In a line that matches [status_line_re], the leftmost match of
    [candidates_processed_re] is the second run of digits with its [p]. *)
Lemma first_of_status_line s : forall g c rest,
  skip_digits s = String g (String c rest) ->
  Ascii.eqb g "g" = true -> Py.is_space c = true ->
  starts_with "p" (skip_digits rest) = true ->
  candidates_processed_re_first s = Some (take_digits rest ++ "p")%string.
Proof.
  induction s as [|ch s IH]; intros g c rest Hs Hg Hc Hp; [discriminate|].
  assert (Hgp : Ascii.eqb g "p" = false)
    by (apply Ascii.eqb_eq in Hg; subst g; reflexivity).
  simpl in Hs. destruct (Py.is_digit ch) eqn:E.
  - cbn [candidates_processed_re_first]. unfold digits_p_at.
    cbn [skip_digits]. rewrite E, Hs. cbn [starts_with]. rewrite Hgp.
    eapply IH; eauto.
  - injection Hs as -> ->.
    cbn [candidates_processed_re_first]. unfold digits_p_at at 1.
    cbn [skip_digits]. rewrite E. cbn [starts_with]. rewrite Hgp.
    cbn [candidates_processed_re_first]. unfold digits_p_at at 1.
    cbn [skip_digits]. rewrite (is_space_not_digit _ Hc).
    cbn [starts_with]. rewrite (is_space_not_p _ Hc).
    destruct rest as [|r rest']; [discriminate Hp|].
    cbn [candidates_processed_re_first]. unfold digits_p_at. rewrite Hp.
    reflexivity.
Qed.

(** On a status line lines 147-149 raise nothing: the count is the number
    of the second run of digits rounded down to a multiple of 1000. *)
Lemma coarse_count_floor l :
  status_line_re_match l = true ->
  exists d, all_digits d = true /\
    candidates_processed_re_first l = Some (d ++ "p")%string /\
    coarse_count l = inr (1000 * (digits_value d / 1000)).
Proof.
  unfold status_line_re_match, coarse_count. intros H.
  destruct (skip_digits l) as [|g [|c rest]] eqn:Hs; try discriminate.
  apply andb_prop in H as [H Hp]. apply andb_prop in H as [Hg Hc].
  exists (take_digits rest). split; [apply take_digits_all|].
  rewrite (first_of_status_line _ _ _ _ Hs Hg Hc Hp). split; [reflexivity|].
  rewrite coarse_digits by apply take_digits_all. reflexivity.
Qed.

Lemma coarse_count_total l :
  status_line_re_match l = true -> exists count, coarse_count l = inr count /\ 0 <= count.
Proof.
  intros (d & Hd & _ & Hc)%coarse_count_floor. eexists. split; [exact Hc|].
  pose proof (digits_acc_bound d Hd) as Hb. unfold digits_value.
  apply Z.mul_nonneg_nonneg; [lia|]. apply Z.div_pos; lia.
Qed.

(** ** The buffer as a Python list *)

Lemma range_down_nil start stop : start <= stop -> Py.range_down start stop = [].
Proof.
  intros H. unfold Py.range_down.
  replace (Z.to_nat (start - stop)) with 0%nat by lia. reflexivity.
Qed.

Lemma range_down_cons start stop :
  stop < start -> Py.range_down start stop = start :: Py.range_down (start - 1) stop.
Proof.
  intros H. unfold Py.range_down.
  replace (Z.to_nat (start - stop)) with (S (Z.to_nat (start - 1 - stop))) by lia.
  cbn [seq fmap list_fmap]. f_equal; [lia|].
  rewrite <- fmap_S_seq, <- list_fmap_compose.
  apply list_fmap_ext. intros _ k _. simpl. lia.
Qed.

Lemma delete_last {A} (l : list A) :
  delete (length l - 1)%nat l = take (length l - 1)%nat l.
Proof.
  rewrite delete_take_drop.
  rewrite (drop_ge l (S (length l - 1))) by lia. apply app_nil_r.
Qed.

(** The [for] loop of [handle_close] cuts the buffer down to its first
    [i] slots. *)
Lemma del_each_range k : forall n i (l : list (option string)),
  Z.to_nat (n - i) = k -> 0 <= i <= n -> length l = Z.to_nat n ->
  del_each (Py.range_down (n - 1) (i - 1)) l = Some (take (Z.to_nat i) l).
Proof.
  induction k as [|k IH]; intros n i l Hk Hi Hl.
  - rewrite range_down_nil by lia. simpl.
    rewrite take_ge by lia. reflexivity.
  - rewrite range_down_cons by lia. cbn [del_each]. unfold Py.delitem.
    replace ((0 <=? n - 1) && (n - 1 <? Z.of_nat (length l))) with true
      by (symmetry; apply andb_true_intro; split; lia).
    replace (Z.to_nat (n - 1)) with (length l - 1)%nat by lia.
    rewrite delete_last.
    rewrite (IH (n - 1) i) by (rewrite ?length_take; lia).
    rewrite take_take. f_equal. f_equal. lia.
Qed.

Lemma take_S_insert {A} (l : list A) : forall i v,
  (i < length l)%nat -> take (S i) (<[i:=v]> l) = take i l ++ [v].
Proof.
  induction l as [|a l IH]; intros [|i] v H; simpl in *; try lia.
  - rewrite take_0. reflexivity.
  - f_equal. apply IH. lia.
Qed.

Lemma insert_last {A} (l : list A) i v :
  S i = length l -> <[i:=v]> l = take i l ++ [v].
Proof.
  intros H. rewrite <- (take_S_insert l i v) by lia.
  rewrite take_ge; [reflexivity|]. rewrite length_insert. lia.
Qed.

Lemma batches_app cs cs' : batches (cs ++ cs') = batches cs ++ batches cs'.
Proof. apply omap_app. Qed.

Lemma length_concat_uniform {A} (bs : list (list A)) n :
  Forall (fun b => Z.of_nat (length b) = n) bs ->
  Z.of_nat (length (concat bs)) = Z.of_nat (length bs) * n.
Proof.
  induction 1 as [|b bs Hb _ IH]; simpl; [reflexivity|].
  rewrite length_app. lia.
Qed.

(** ** The plaintext loop *)

Lemma for_each_app body pre rest self self' :
  for_each body pre self = Next self' ->
  for_each body (pre ++ rest) self = for_each body rest self'.
Proof.
  revert self. induction pre as [|x pre IH]; intros self H; simpl in *.
  - injection H as ->. reflexivity.
  - destruct (body x self); try discriminate. apply IH, H.
Qed.


Lemma plain_inv_init job :
  1 <= analysis_interval job -> plain_inv job [] (execute_init job).
Proof.
  intros Hn. unfold plain_inv, execute_init, live. simpl.
  rewrite length_replicate. repeat split; try reflexivity; try lia.
  constructor.
Qed.

Section Plaintext.

Variable job : Job.
Let n := analysis_interval job.

Lemma plain_setitem seen self x :
  plain_inv job seen self ->
  Py.setitem (received_candidates self) (index self) (stored x) =
    Some (<[Z.to_nat (index self) := stored x]> (received_candidates self)).
Proof.
  intros (Hlen & Hidx & _). unfold Py.setitem.
  replace ((0 <=? index self) && (index self <? Z.of_nat (length (received_candidates self))))
    with true; [reflexivity|].
  symmetry. apply andb_true_intro. split; lia.
Qed.

(** One pass that does not hit the ceiling keeps the invariant. *)
Lemma plain_step seen self x :
  plain_inv job seen self ->
  ceiling_hit job (Z.of_nat (length seen) + 1) = false ->
  exists self', plaintext_body job x self = Next self' /\
                plain_inv job (seen ++ [x]) self'.
Proof.
  intros Hinv Hhit.
  pose proof (plain_setitem _ _ x Hinv) as Hset.
  destruct Hinv as (Hlen & Hidx & Hcnt & Hline & Hcalls & Hfull & Hcat).
  unfold plaintext_body. fold (stored x). rewrite Hset. cbn.
  rewrite Hcnt, Hhit.
  destruct (index self + 1 =? analysis_interval job) eqn:Hflush.
  - apply Z.eqb_eq in Hflush. eexists. split; [reflexivity|].
    unfold plain_inv, live. cbn.
    rewrite batches_app, fmap_app. cbn.
    rewrite insert_last by lia. fold (live self).
    assert (Hl : length (live self) = Z.to_nat (index self))
      by (unfold live; rewrite length_take; lia).
    repeat split; try lia; try assumption.
    + rewrite length_app. simpl. rewrite Hl. lia.
    + rewrite length_app. simpl. lia.
    + f_equal. exact Hcalls.
    + apply Forall_app. split; [exact Hfull|].
      constructor; [|constructor]. rewrite length_app. simpl. lia.
    + rewrite concat_app. simpl. rewrite !app_nil_r, fmap_app, <- Hcat.
      rewrite app_assoc. reflexivity.
  - apply Z.eqb_neq in Hflush. eexists. split; [reflexivity|].
    unfold plain_inv, live. cbn.
    replace (Z.to_nat (index self + 1)) with (S (Z.to_nat (index self))) by lia.
    rewrite take_S_insert by lia. fold (live self).
    repeat split; try lia; try assumption.
    + rewrite length_insert. exact Hlen.
    + rewrite length_app. simpl. lia.
    + rewrite fmap_app, <- Hcat, app_assoc. reflexivity.
Qed.

(** A stream that never hits the ceiling is read to its end. *)
Lemma plain_loop stdin : forall seen self,
  plain_inv job seen self ->
  (forall k, 1 <= k <= Z.of_nat (length stdin) ->
             ceiling_hit job (Z.of_nat (length seen) + k) = false) ->
  exists self', for_each (plaintext_body job) stdin self = Next self' /\
                plain_inv job (seen ++ stdin) self' /\
                counter_trace (plaintext_body job) stdin self =
                  (fun k => Z.of_nat (length seen) + Z.of_nat k) <$> seq 1 (length stdin).
Proof.
  induction stdin as [|x stdin IH]; intros seen self Hinv Hhit.
  - exists self. rewrite app_nil_r. auto.
  - destruct (plain_step seen self x Hinv) as (self1 & Hbody & Hinv1).
    { apply Hhit. simpl length. lia. }
    destruct (IH (seen ++ [x]) self1 Hinv1) as (self' & Hloop & Hinv' & Htr).
    { intros k Hk. rewrite length_app. simpl length.
      replace (Z.of_nat (length seen + 1) + k)
        with (Z.of_nat (length seen) + (k + 1)) by lia.
      apply Hhit. simpl length. lia. }
    exists self'. unfold counter_trace in *. cbn [for_each visited].
    rewrite Hbody. rewrite <- app_assoc in Hinv'.
    split; [exact Hloop|]. split; [exact Hinv'|].
    cbn [seq length]. rewrite !fmap_cons. f_equal.
    + destruct Hinv1 as (_ & _ & Hc & _). rewrite Hc, length_app. simpl. lia.
    + rewrite Htr. rewrite <- (fmap_S_seq 1), <- list_fmap_compose.
      apply list_fmap_ext. intros _ k _. simpl. rewrite length_app. simpl. lia.
Qed.

(** The pass that hits the ceiling calls [kill_guesser] and leaves the
    loop before the flush of line 128. *)
Lemma plain_break seen self x :
  plain_inv job seen self ->
  ceiling_hit job (Z.of_nat (length seen) + 1) = true ->
  exists self', plaintext_body job x self = Break self' /\
    calls self' = calls self ++ [KillGuesser] /\
    length (received_candidates self') = Z.to_nat n /\
    0 < index self' <= n /\
    live self' = live self ++ [stored x] /\
    candidate_counter self' = Z.of_nat (length seen) + 1.
Proof.
  intros Hinv Hhit.
  pose proof (plain_setitem _ _ x Hinv) as Hset.
  destruct Hinv as (Hlen & Hidx & Hcnt & Hline & Hcalls & Hfull & Hcat).
  unfold plaintext_body. fold (stored x). rewrite Hset. cbn.
  rewrite Hcnt, Hhit. eexists. split; [reflexivity|].
  unfold live, n. cbn.
  replace (Z.to_nat (index self + 1)) with (S (Z.to_nat (index self))) by lia.
  rewrite take_S_insert by lia. rewrite length_insert.
  repeat split; try lia; reflexivity.
Qed.

(** [handle_close] in plaintext mode: the live slots, if any, then the
    report. *)
Lemma handle_close_plaintext last_line self :
  filetype job = plaintext ->
  length (received_candidates self) = Z.to_nat n ->
  0 <= index self <= n ->
  exists self', handle_close job last_line self = Finished self' /\
    candidate_counter self' = candidate_counter self /\
    calls self' =
      calls self ++
      (if index self >? 0 then [ProcessCandidates (live self)] else []) ++ [GenReport].
Proof.
  intros Hft Hlen Hidx. unfold handle_close. rewrite Hft.
  destruct (index self >? 0) eqn:Hpos.
  - rewrite (del_each_range (Z.to_nat (n - index self)) n (index self))
      by (auto; lia).
    eexists. split; [reflexivity|]. cbn. rewrite <- app_assoc. auto.
  - eexists. split; [reflexivity|]. auto.
Qed.

End Plaintext.

Lemma ceil_div_count k i n m :
  1 <= n -> 0 <= i < n -> k * n + i = m ->
  k + (if i >? 0 then 1 else 0) = ceil_div m n.
Proof.
  intros Hn Hi Hm. unfold ceil_div. destruct (i >? 0) eqn:E.
  - apply (Z.div_unique_pos _ _ _ (i - 1)); lia.
  - apply (Z.div_unique_pos _ _ _ (n - 1)); lia.
Qed.

Lemma never_hit_ceiling job m k :
  never_hit job m -> 1 <= k <= m -> ceiling_hit job k = false.
Proof.
  unfold never_hit, ceiling_hit. destruct (terminate_guessing job); [|reflexivity].
  intros H Hk. apply Z.eqb_neq. lia.
Qed.

(** [candidate[:-1]] removes the last character, whatever it is. *)
Lemma slice_drops_last c ch :
  Py.slice_to_neg 1 (c ++ String ch EmptyString) = c.
Proof.
  unfold Py.slice_to_neg. rewrite string_length_app. simpl String.length.
  replace (String.length c + 1 - 1)%nat with (String.length c) by lia.
  induction c as [|a c IH]; simpl; [reflexivity|]. rewrite IH. reflexivity.
Qed.

(** It removes the newline of a line that ends with one. *)
Lemma stored_newline c : stored (c ++ nl) = Some c.
Proof. unfold stored, nl. rewrite slice_drops_last. reflexivity. Qed.

(** C1. In plaintext mode with an interval [n >= 1] and a stream of [m]
    lines that never hits the termination ceiling, the run ends normally,
    [process_candidates] is called [ceil(m/n)] times and nothing else is
    called before the report; every batch is non-empty and holds at most
    [n] entries, and every batch but the last holds exactly [n].  The
    batches, put one after the other, are what line 120 stored, in order,
    with no duplicate and no stale entry: each line without its last
    character.  That is the original candidate sequence when every line
    ends with a newline.  It is not when the last line of the stream does
    not: the last candidate then goes out without its own last character. *)
Theorem C1_plaintext_batches_cover_stream job stdin :
  filetype job = plaintext ->
  1 <= analysis_interval job ->
  never_hit job (Z.of_nat (length stdin)) ->
  exists self, execute job stdin = Finished self /\
    calls self = (ProcessCandidates <$> batches (calls self)) ++ [GenReport] /\
    Z.of_nat (length (batches (calls self))) =
      ceil_div (Z.of_nat (length stdin)) (analysis_interval job) /\
    concat (batches (calls self)) = stored <$> stdin /\
    (forall candidates, stdin = (fun c => (c ++ nl)%string) <$> candidates ->
       concat (batches (calls self)) = Some <$> candidates) /\
    (forall candidates c ch,
       stdin = ((fun c => (c ++ nl)%string) <$> candidates) ++
               [(c ++ String ch EmptyString)%string] ->
       concat (batches (calls self)) = Some <$> (candidates ++ [c])) /\
    (forall i b, batches (calls self) !! i = Some b ->
       0 < Z.of_nat (length b) <= analysis_interval job /\
       ((S i < length (batches (calls self)))%nat ->
        Z.of_nat (length b) = analysis_interval job)).
Proof.
  intros Hft Hn Hnever.
  destruct (plain_loop job stdin [] (execute_init job) (plain_inv_init job Hn))
    as (self1 & Hloop & Hinv & _).
  { intros k Hk. apply (never_hit_ceiling job (Z.of_nat (length stdin)));
      [exact Hnever | simpl; lia]. }
  simpl in Hinv.
  destruct Hinv as (Hlen & Hidx & Hcnt & Hline & Hcalls & Hfull & Hcat).
  destruct (handle_close_plaintext job None self1 Hft Hlen) as (self & Hclose & _ & Hc);
    [lia|].
  assert (Hlive : length (live self1) = Z.to_nat (index self1))
    by (unfold live; rewrite length_take; lia).
  set (tail := if index self1 >? 0 then [live self1] else []).
  assert (Hb : batches (calls self) = batches (calls self1) ++ tail).
  { rewrite Hc, !batches_app. subst tail.
    destruct (index self1 >? 0); simpl; rewrite ?app_nil_r; reflexivity. }
  assert (Hcat' : concat (batches (calls self)) = stored <$> stdin).
  { rewrite Hb, concat_app, <- Hcat. f_equal. subst tail.
    destruct (index self1 >? 0) eqn:E; simpl; [apply app_nil_r|].
    unfold live. replace (Z.to_nat (index self1)) with 0%nat by lia. reflexivity. }
  exists self. split.
  { unfold execute. rewrite Hft, Hloop. exact Hclose. }
  split.
  { rewrite Hb, Hc, fmap_app, <- Hcalls. subst tail.
    destruct (index self1 >? 0); simpl; rewrite <- ?app_assoc; reflexivity. }
  split.
  { rewrite Hb, length_app, Nat2Z.inj_add.
    pose proof (length_concat_uniform _ _ Hfull) as Hsum.
    apply (f_equal (@length _)) in Hcat.
    rewrite length_app, length_fmap, Hlive in Hcat.
    replace (Z.of_nat (length tail)) with (if index self1 >? 0 then 1 else 0)
      by (subst tail; destruct (index self1 >? 0); reflexivity).
    apply (ceil_div_count _ (index self1)); lia. }
  split; [exact Hcat'|]. split.
  { intros candidates ->. rewrite Hcat', <- list_fmap_compose.
    apply list_fmap_ext. intros _ c _. apply stored_newline. }
  split.
  { intros candidates c ch ->. rewrite Hcat', !fmap_app, <- list_fmap_compose.
    f_equal; [apply list_fmap_ext; intros _ c' _; apply stored_newline|].
    cbn. unfold stored. rewrite slice_drops_last. reflexivity. }
  intros i b Hib. rewrite Hb in Hib |- *.
  apply lookup_app_Some in Hib as [Hib|[Hge Hib]].
  - rewrite Forall_lookup in Hfull. specialize (Hfull _ _ Hib). simpl in Hfull. lia.
  - subst tail. destruct (index self1 >? 0) eqn:E; [|rewrite lookup_nil in Hib; discriminate].
    apply list_lookup_singleton_Some in Hib as [Hi <-].
    rewrite length_app, Hlive. simpl. lia.
Qed.

(** Interval 2, three lines (the last without a newline), a ceiling of 10
    that the three candidates do not reach. *)
Lemma C1_plaintext_batches_witness :
  let job := {| filetype := plaintext; guesser_pid := 4242;
                analysis_interval := 2; terminate_guessing := Some 10 |} in
  let stdin := [("abc" ++ nl)%string; ("123456" ++ nl)%string; "qwerty"%string] in
  exists self, execute job stdin = Finished self /\
    calls self = (ProcessCandidates <$> batches (calls self)) ++ [GenReport] /\
    Z.of_nat (length (batches (calls self))) =
      ceil_div (Z.of_nat (length stdin)) (analysis_interval job) /\
    concat (batches (calls self)) = stored <$> stdin /\
    (forall candidates, stdin = (fun c => (c ++ nl)%string) <$> candidates ->
       concat (batches (calls self)) = Some <$> candidates) /\
    (forall candidates c ch,
       stdin = ((fun c => (c ++ nl)%string) <$> candidates) ++
               [(c ++ String ch EmptyString)%string] ->
       concat (batches (calls self)) = Some <$> (candidates ++ [c])) /\
    (forall i b, batches (calls self) !! i = Some b ->
       0 < Z.of_nat (length b) <= analysis_interval job /\
       ((S i < length (batches (calls self)))%nat ->
        Z.of_nat (length b) = analysis_interval job)).
Proof.
  intros job stdin.
  apply (C1_plaintext_batches_cover_stream job stdin);
    [reflexivity | simpl; lia | right; simpl; lia].
Defined.

(** C1 fails as stated on the stream of that run: the third batch entry is
    ["qwert"], not the candidate ["qwerty"] that was sent. *)
Lemma C1_last_candidate_cut_counterexample :
  let job := {| filetype := plaintext; guesser_pid := 4242;
                analysis_interval := 2; terminate_guessing := Some 10 |} in
  let stdin := [("abc" ++ nl)%string; ("123456" ++ nl)%string; "qwerty"%string] in
  never_hit job (Z.of_nat (length stdin)) /\
  batches (calls_of (execute job stdin)) =
    [[Some "abc"; Some "123456"]; [Some "qwert"]]%string /\
  concat (batches (calls_of (execute job stdin))) <>
    (Some <$> ["abc"; "123456"; "qwerty"])%string.
Proof.
  intros job stdin. split; [right; simpl; lia|]. split; [reflexivity|].
  replace (batches (calls_of (execute job stdin)))
    with [[Some "abc"; Some "123456"]; [Some "qwert"]]%string by reflexivity.
  discriminate.
Qed.

Lemma count_calls_app p cs cs' :
  count_calls p (cs ++ cs') = (count_calls p cs + count_calls p cs')%nat.
Proof. unfold count_calls. rewrite filter_app, length_app. reflexivity. Qed.

Lemma count_calls_batches p bs :
  (forall b, p (ProcessCandidates b) = false) ->
  count_calls p (ProcessCandidates <$> bs) = 0%nat.
Proof.
  intros Hp. unfold count_calls. induction bs as [|b bs IH]; [reflexivity|].
  rewrite fmap_cons, filter_cons_False; [exact IH|]. rewrite Hp. discriminate.
Qed.

Lemma count_calls_status_lines p ls :
  (forall l, p (ProcessStatusLine l) = false) ->
  count_calls p (ProcessStatusLine <$> ls) = 0%nat.
Proof.
  intros Hp. unfold count_calls. induction ls as [|l ls IH]; [reflexivity|].
  rewrite fmap_cons, filter_cons_False; [exact IH|]. rewrite Hp. discriminate.
Qed.

Lemma split_at_ceiling (stdin : list string) c :
  1 <= c <= Z.of_nat (length stdin) ->
  exists x rest,
    stdin = take (Z.to_nat (c - 1)) stdin ++ x :: rest /\
    take (Z.to_nat c) stdin = take (Z.to_nat (c - 1)) stdin ++ [x].
Proof.
  intros Hc. destruct (drop (Z.to_nat (c - 1)) stdin) as [|x rest] eqn:Hd.
  - apply (f_equal (@length _)) in Hd. rewrite length_drop in Hd. simpl in Hd. lia.
  - exists x, rest.
    assert (Hs : stdin = take (Z.to_nat (c - 1)) stdin ++ x :: rest)
      by (rewrite <- Hd; symmetry; apply take_drop).
    split; [exact Hs|].
    rewrite Hs at 1. rewrite cons_middle, app_assoc.
    apply take_app_length'. rewrite length_app, length_take. simpl. lia.
Qed.




(** ** The status-line loop *)

Lemma status_lines_app cs cs' :
  status_lines (cs ++ cs') = status_lines cs ++ status_lines cs'.
Proof. apply omap_app. Qed.

Lemma status_lines_fmap ls : status_lines (ProcessStatusLine <$> ls) = ls.
Proof. induction ls as [|l ls IH]; simpl; [reflexivity|]. f_equal. exact IH. Qed.

Lemma classify_progress l count :
  classify l = Progress count <->
  status_line_re_match l = true /\ coarse_count l = inr count.
Proof.
  unfold classify. destruct (status_line_re_match l).
  - destruct (coarse_count l) as [e|k]; split.
    + discriminate. + intros [_ [=]].
    + intros [= ->]. auto. + intros [_ [= ->]]. reflexivity.
  - destruct (Py.contains _ l); split; try discriminate; intros [[=] _].
Qed.

Lemma classify_session l :
  classify l = SessionComplete <->
  Py.contains "Session completed" l = true /\ status_line_re_match l = false.
Proof.
  unfold classify. destruct (status_line_re_match l) eqn:E.
  - destruct (coarse_count_total l E) as (k & -> & _).
    split; [discriminate|intros [_ [=]]].
  - destruct (Py.contains _ l); split; auto; try discriminate. intros [[=] _].
Qed.

Section StatusLines.

Variable job : Job.
Hypothesis job_hash : filetype job = hashvalues.

Lemma hash_body_ignored l self :
  status_line_re_match l = false ->
  Py.contains "Session completed" l = false ->
  hash_body job l self = Next (set_line l self).
Proof. intros Hm Hs. unfold hash_body. rewrite Hm, Hs. reflexivity. Qed.

Lemma hash_body_session l self :
  status_line_re_match l = false ->
  Py.contains "Session completed" l = true ->
  exists self', hash_body job l self = Return self' /\
    calls self' = calls self ++ kill_if_ceiling job ++ [GenReport] /\
    candidate_counter self' = candidate_counter self.
Proof.
  intros Hm Hs. unfold hash_body, handle_close, kill_if_ceiling.
  rewrite Hm, Hs, job_hash. cbn.
  destruct (terminate_guessing job); eexists; (split; [reflexivity|]); cbn;
    rewrite <- ?app_assoc; auto.
Qed.

Lemma hash_body_progress l count self :
  status_line_re_match l = true ->
  coarse_count l = inr count ->
  hash_body job l self =
    if ceiling_passed job count
    then Break (do_call KillGuesser (set_candidate_counter count (set_line l self)))
    else Next (do_call (ProcessStatusLine l) (set_candidate_counter count (set_line l self))).
Proof. intros Hm Hc. unfold hash_body. rewrite Hm, Hc. reflexivity. Qed.

(** A loop that reads [pre] to its end has forwarded the status lines of
    [pre], no other call, and holds the last line of [pre] in [line]. *)
Lemma hash_loop_next pre : forall self self1,
  for_each (hash_body job) pre self = Next self1 ->
  calls self1 = calls self ++ (ProcessStatusLine <$> progress_lines pre) /\
  line self1 = (if last pre is Some l then Some l else line self) /\
  Forall (fun l => classify l <> SessionComplete /\
                   forall count, classify l = Progress count ->
                                 ceiling_passed job count = false) pre.
Proof.
  induction pre as [|x pre IH]; intros self self1 H; simpl in H.
  - injection H as <-. rewrite app_nil_r. auto.
  - unfold progress_lines. destruct (status_line_re_match x) eqn:Hm.
    + destruct (coarse_count_total x Hm) as (count & Hc & _).
      rewrite (hash_body_progress x count self Hm Hc) in H.
      destruct (ceiling_passed job count) eqn:Hp; [discriminate|].
      apply IH in H as (Hcalls & Hline & Hall). cbn in Hcalls, Hline.
      rewrite filter_cons_True by exact Hm.
      rewrite Hcalls, <- app_assoc, last_cons, Hline.
      split; [reflexivity|]. split; [destruct (last pre); reflexivity|].
      constructor; [|exact Hall]. split.
      * rewrite classify_session, Hm. intros [_ [=]].
      * intros k [_ Hk]%classify_progress. congruence.
    + destruct (Py.contains "Session completed" x) eqn:Hs.
      * destruct (hash_body_session x self Hm Hs) as (s & Hb & _).
        rewrite Hb in H. discriminate.
      * rewrite (hash_body_ignored x self Hm Hs) in H.
        apply IH in H as (Hcalls & Hline & Hall). cbn in Hcalls, Hline.
        rewrite filter_cons_False by (rewrite Hm; discriminate).
        rewrite Hcalls, last_cons, Hline.
        split; [reflexivity|]. split; [destruct (last pre); reflexivity|].
        constructor; [|exact Hall]. split.
        -- rewrite classify_session, Hs. intros [[=] _].
        -- intros k [Hk _]%classify_progress. congruence.
Qed.

(** How the loop stops before the end of the stream: by [break] on a
    status line whose count has reached the ceiling, or by [return] on a
    line with "Session completed"; it raises nothing. *)
Lemma hash_loop_stop stdin : forall self,
  match for_each (hash_body job) stdin self with
  | Next _ => True
  | Break s =>
      exists pre l rest count self1,
        stdin = pre ++ l :: rest /\
        for_each (hash_body job) pre self = Next self1 /\
        classify l = Progress count /\ ceiling_passed job count = true /\
        s = do_call KillGuesser (set_candidate_counter count (set_line l self1))
  | Return s =>
      exists pre l rest self1,
        stdin = pre ++ l :: rest /\
        for_each (hash_body job) pre self = Next self1 /\
        classify l = SessionComplete /\
        calls s = calls self1 ++ kill_if_ceiling job ++ [GenReport]
  | Raise _ _ => False
  end.
Proof.
  induction stdin as [|x stdin IH]; intros self; [exact I|].
  cbn [for_each]. destruct (status_line_re_match x) eqn:Hm.
  - destruct (coarse_count_total x Hm) as (count & Hc & _).
    rewrite (hash_body_progress x count self Hm Hc).
    destruct (ceiling_passed job count) eqn:Hp.
    + exists [], x, stdin, count, self. repeat split; auto.
      apply classify_progress. auto.
    + set (self' := do_call _ _). specialize (IH self').
      assert (Hx : hash_body job x self = Next self')
        by (rewrite (hash_body_progress x count self Hm Hc), Hp; reflexivity).
      destruct (for_each (hash_body job) stdin self') as [s|s|s|e s]; auto.
      * destruct IH as (pre & l & rest & k & self1 & -> & Hpre & H).
        exists (x :: pre), l, rest, k, self1. split; [reflexivity|].
        split; [|exact H]. cbn [for_each]. rewrite Hx. exact Hpre.
      * destruct IH as (pre & l & rest & self1 & -> & Hpre & H).
        exists (x :: pre), l, rest, self1. split; [reflexivity|].
        split; [|exact H]. cbn [for_each]. rewrite Hx. exact Hpre.
  - destruct (Py.contains "Session completed" x) eqn:Hs.
    + destruct (hash_body_session x self Hm Hs) as (s & -> & Hcalls & _).
      exists [], x, stdin, self. repeat split; auto.
      apply classify_session. auto.
    + pose proof (hash_body_ignored x self Hm Hs) as Hx. rewrite Hx.
      specialize (IH (set_line x self)).
      destruct (for_each (hash_body job) stdin (set_line x self)) as [s|s|s|e s]; auto.
      * destruct IH as (pre & l & rest & k & self1 & -> & Hpre & H).
        exists (x :: pre), l, rest, k, self1. split; [reflexivity|].
        split; [|exact H]. cbn [for_each]. rewrite Hx. exact Hpre.
      * destruct IH as (pre & l & rest & self1 & -> & Hpre & H).
        exists (x :: pre), l, rest, self1. split; [reflexivity|].
        split; [|exact H]. cbn [for_each]. rewrite Hx. exact Hpre.
Qed.

End StatusLines.

Lemma init_calls job : calls (execute_init job) = [].
Proof. reflexivity. Qed.

Lemma ceiling_passed_ge job ceiling count :
  terminate_guessing job = Some ceiling -> ceiling <= count ->
  ceiling_passed job count = true.
Proof.
  intros Htg H. unfold ceiling_passed. rewrite Htg.
  rewrite Z.geb_leb. apply Z.leb_le, H.
Qed.

(** C3, as amended.  In hash mode, when the loop has read [pre] without
    stopping and the next line [l] is a status line whose coarse count has
    reached the ceiling, the loop is left by [break] after one call of
    [kill_guesser], without [l] having been forwarded inside the loop (and
    [l] is none of the lines forwarded before); [handle_close(last_line =
    line)] then forwards [l] to [process_status_line], once, before the
    report. *)
Theorem C3_hash_breach_line_forwarded_on_close job pre l rest ceiling count self1 :
  filetype job = hashvalues ->
  terminate_guessing job = Some ceiling ->
  for_each (hash_body job) pre (execute_init job) = Next self1 ->
  classify l = Progress count ->
  ceiling <= count ->
  exists self0 self,
    for_each (hash_body job) (pre ++ l :: rest) (execute_init job) = Break self0 /\
    calls self0 = (ProcessStatusLine <$> progress_lines pre) ++ [KillGuesser] /\
    (l ∉ progress_lines pre) /\
    execute job (pre ++ l :: rest) = Finished self /\
    calls self = (ProcessStatusLine <$> progress_lines pre) ++
                 [KillGuesser; ProcessStatusLine l; GenReport] /\
    status_lines (calls self) = progress_lines pre ++ [l].
Proof.
  intros Hft Htg Hpre Hcl Hge.
  pose proof (ceiling_passed_ge job ceiling count Htg Hge) as Hp.
  destruct (hash_loop_next job Hft pre _ _ Hpre) as (Hcalls1 & _ & Hall).
  rewrite init_calls in Hcalls1. simpl in Hcalls1.
  apply classify_progress in Hcl as Hcl'. destruct Hcl' as [Hm Hc].
  set (self0 := do_call KillGuesser (set_candidate_counter count (set_line l self1))).
  assert (Hfor : for_each (hash_body job) (pre ++ l :: rest) (execute_init job) = Break self0).
  { rewrite (for_each_app _ _ _ _ _ Hpre). cbn [for_each].
    rewrite (hash_body_progress job l count self1 Hm Hc), Hp. reflexivity. }
  eexists self0, _. split; [exact Hfor|]. split.
  { subst self0. cbn. rewrite Hcalls1. reflexivity. }
  split.
  { intros [_ Hin]%list_elem_of_filter. rewrite Forall_forall in Hall.
    destruct (Hall l Hin) as [_ Hlow]. rewrite (Hlow count Hcl) in Hp. discriminate. }
  split.
  { unfold execute. rewrite Hft, Hfor. subst self0. cbn.
    unfold handle_close. rewrite Hft. reflexivity. }
  cbn. rewrite Hcalls1. split.
  - rewrite <- !app_assoc. reflexivity.
  - rewrite !status_lines_app, status_lines_fmap. cbn.
    rewrite <- !app_assoc. reflexivity.
Qed.

(** Ceiling 4000: one status line below it, one ignored line, then the
    line of John the Ripper with the coarse count 4000. *)
Lemma C3_hash_breach_witness :
  let job := {| filetype := hashvalues; guesser_pid := 4242;
                analysis_interval := 1000; terminate_guessing := Some 4000 |} in
  let pre := ["10g 2000p 0:00:00:02"; "Loaded 3107 password hashes"]%string in
  let l := jtr_line in
  let rest := ["800g 5001p 0:00:00:05"]%string in
  exists self0 self,
    for_each (hash_body job) (pre ++ l :: rest) (execute_init job) = Break self0 /\
    calls self0 = (ProcessStatusLine <$> progress_lines pre) ++ [KillGuesser] /\
    (l ∉ progress_lines pre) /\
    execute job (pre ++ l :: rest) = Finished self /\
    calls self = (ProcessStatusLine <$> progress_lines pre) ++
                 [KillGuesser; ProcessStatusLine l; GenReport] /\
    status_lines (calls self) = progress_lines pre ++ [l].
Proof.
  intros job pre l rest.
  eapply (C3_hash_breach_line_forwarded_on_close job pre l rest 4000 4000);
    [reflexivity | reflexivity | vm_compute; reflexivity | reflexivity | lia].
Defined.

(** C3 fails as stated: with the ceiling 4000 the line with the coarse
    count 4000 stops the loop and is then handed to
    [process_status_line]. *)
Lemma C3_breach_line_forwarded_counterexample :
  let job := {| filetype := hashvalues; guesser_pid := 4242;
                analysis_interval := 1000; terminate_guessing := Some 4000 |} in
  classify jtr_line = Progress 4000 /\
  calls_of (execute job [jtr_line]) =
    [KillGuesser; ProcessStatusLine jtr_line; GenReport] /\
  ~ (jtr_line ∉ status_lines (calls_of (execute job [jtr_line]))).
Proof.
  intros job. split; [reflexivity|]. split; [reflexivity|].
  intros H. apply H. vm_compute. apply list_elem_of_singleton. reflexivity.
Qed.

(** C7. The line of the comment of line 146 matches [status_line_re]; the
    first match of [candidates_processed_re] in it is ["4008p"]; lines
    147-149 turn it into 4000, the number 4008 rounded down to a multiple
    of 1000, as they do with the count of every status line; 4000 is the
    class of the line, and the loop body stores 4000 in [candidate_counter]
    and compares 4000 with the ceiling. *)
Theorem C7_jtr_line_coarse_count_4000 :
  status_line_re_match jtr_line = true /\
  candidates_processed_re_first jtr_line = Some "4008p"%string /\
  coarse_count jtr_line = inr 4000 /\
  4000 = 1000 * (digits_value "4008" / 1000) /\
  (forall l, status_line_re_match l = true ->
     exists d, all_digits d = true /\
       candidates_processed_re_first l = Some (d ++ "p")%string /\
       coarse_count l = inr (1000 * (digits_value d / 1000))) /\
  classify jtr_line = Progress 4000 /\
  forall job self,
    hash_body job jtr_line self =
      if ceiling_passed job 4000
      then Break (do_call KillGuesser
                    (set_candidate_counter 4000 (set_line jtr_line self)))
      else Next (do_call (ProcessStatusLine jtr_line)
                   (set_candidate_counter 4000 (set_line jtr_line self))).
Proof.
  split; [reflexivity|]. split; [reflexivity|]. split; [reflexivity|].
  split; [reflexivity|]. split; [exact coarse_count_floor|].
  split; [reflexivity|]. intros job self. reflexivity.
Qed.

(** C10. In hash mode the empty stream leaves [line] unbound, so
    [handle_close(last_line=line)] raises before any call is made:
    [gen_report] is not called. *)
Theorem C10_hash_empty_stream_unbound_line job :
  filetype job = hashvalues ->
  execute job [] = Failed UnboundLocalError (execute_init job) /\
  calls_of (execute job []) = [] /\
  count_calls is_gen_report (calls_of (execute job [])) = 0%nat.
Proof.
  intros Hft. unfold execute. rewrite Hft. simpl. auto.
Qed.

Lemma C10_hash_empty_stream_witness :
  let job := {| filetype := hashvalues; guesser_pid := 4242;
                analysis_interval := 1000; terminate_guessing := None |} in
  execute job [] = Failed UnboundLocalError (execute_init job) /\
  calls_of (execute job []) = [] /\
  count_calls is_gen_report (calls_of (execute job [])) = 0%nat.
Proof.
  intros job. apply (C10_hash_empty_stream_unbound_line job). reflexivity.
Defined.

Lemma handle_close_hash job l self :
  filetype job = hashvalues ->
  handle_close job (Some l) self =
    Finished (do_call GenReport (do_call (ProcessStatusLine l) self)).
Proof. intros Hft. unfold handle_close. rewrite Hft. reflexivity. Qed.

Lemma status_lines_kill_report job :
  status_lines (kill_if_ceiling job ++ [GenReport]) = [].
Proof. unfold kill_if_ceiling. destruct (terminate_guessing job); reflexivity. Qed.

Lemma progress_lines_match l stdin :
  l ∈ progress_lines stdin -> status_line_re_match l = true.
Proof. intros [H _]%list_elem_of_filter. exact H. Qed.

(** Whatever the stream, a line with "Session completed" that is no status
    line is never handed to [process_status_line]. *)
Lemma session_line_never_forwarded job stdin l :
  filetype job = hashvalues ->
  classify l = SessionComplete ->
  l ∉ status_lines (calls_of (execute job stdin)).
Proof.
  intros Hft Hl. apply classify_session in Hl as Hl'. destruct Hl' as [_ Hm].
  assert (Hnp : forall ls, l ∉ progress_lines ls).
  { intros ls Hin%progress_lines_match. congruence. }
  unfold execute. rewrite Hft.
  pose proof (hash_loop_stop job Hft stdin (execute_init job)) as Hstop.
  destruct (for_each (hash_body job) stdin (execute_init job)) as [s|s|s|e s] eqn:Hfor.
  - destruct (hash_loop_next job Hft _ _ _ Hfor) as (Hcalls & Hline & Hall).
    rewrite Hline. destruct (last stdin) as [x|] eqn:Hlast; cbn.
    + rewrite (handle_close_hash job x s Hft). cbn.
      rewrite Hcalls, !status_lines_app, status_lines_fmap. cbn.
      intros H. split_elem H.
      * exact (Hnp _ H).
      * apply last_Some_elem_of in Hlast. rewrite Forall_forall in Hall.
        destruct (Hall _ Hlast) as [Hne _]. exact (Hne Hl).
    + rewrite Hcalls, status_lines_app, status_lines_fmap. cbn.
      intros H. split_elem H. exact (Hnp _ H).
  - destruct Hstop as (pre & x & rest & count & self1 & -> & Hpre & Hx & _ & ->).
    destruct (hash_loop_next job Hft _ _ _ Hpre) as (Hcalls & _ & _).
    cbn. rewrite (handle_close_hash job x _ Hft). cbn.
    rewrite Hcalls, !status_lines_app, status_lines_fmap. cbn.
    intros H. split_elem H.
    + exact (Hnp _ H).
    + congruence.
  - destruct Hstop as (pre & x & rest & self1 & -> & Hpre & Hx & Hcalls).
    destruct (hash_loop_next job Hft _ _ _ Hpre) as (Hcalls1 & _ & _).
    cbn. rewrite Hcalls, Hcalls1, !status_lines_app, status_lines_fmap.
    rewrite <- status_lines_app, status_lines_kill_report. cbn.
    intros H. split_elem H. exact (Hnp _ H).
  - destruct Hstop.
Qed.

(** C6. In hash mode a line with "Session completed" that does not match
    [status_line_re] is in the class [SessionComplete]; it is never handed
    to [process_status_line], whatever the stream; and when the loop
    reaches it after having read [pre] without stopping, the run ends
    normally with exactly the status lines of [pre] forwarded, then one
    call of [kill_guesser] if and only if a ceiling is configured, then the
    report. *)
Theorem C6_session_completed_not_forwarded job l pre rest self1 :
  filetype job = hashvalues ->
  Py.contains "Session completed" l = true ->
  status_line_re_match l = false ->
  for_each (hash_body job) pre (execute_init job) = Next self1 ->
  classify l = SessionComplete /\
  (forall stdin, l ∉ status_lines (calls_of (execute job stdin))) /\
  exists self, execute job (pre ++ l :: rest) = Finished self /\
    calls self = (ProcessStatusLine <$> progress_lines pre) ++
                 kill_if_ceiling job ++ [GenReport] /\
    status_lines (calls self) = progress_lines pre /\
    count_calls is_kill_guesser (calls self) =
      (if terminate_guessing job is Some _ then 1%nat else 0%nat) /\
    (KillGuesser ∈ calls self <-> terminate_guessing job <> None).
Proof.
  intros Hft Hs Hm Hpre.
  assert (Hl : classify l = SessionComplete) by (apply classify_session; auto).
  split; [exact Hl|]. split.
  { intros stdin. apply session_line_never_forwarded; assumption. }
  destruct (hash_loop_next job Hft _ _ _ Hpre) as (Hcalls1 & _ & _).
  rewrite init_calls in Hcalls1. simpl in Hcalls1.
  destruct (hash_body_session job Hft l self1 Hm Hs) as (self & Hbody & Hcalls & _).
  exists self. split.
  { unfold execute. rewrite Hft, (for_each_app _ _ _ _ _ Hpre). cbn [for_each].
    rewrite Hbody. reflexivity. }
  rewrite Hcalls, Hcalls1. split; [reflexivity|]. split.
  { rewrite status_lines_app, status_lines_fmap, status_lines_kill_report.
    apply app_nil_r. }
  unfold kill_if_ceiling. split.
  - rewrite count_calls_app.
    rewrite count_calls_status_lines by reflexivity.
    destruct (terminate_guessing job); reflexivity.
  - rewrite !elem_of_app, list_elem_of_fmap.
    destruct (terminate_guessing job); split.
    + discriminate.
    + intros _. right. left. apply list_elem_of_singleton. reflexivity.
    + intros [(x & [=] & _)|[[]%elem_of_nil|[=]%list_elem_of_singleton]].
    + intros H. destruct H. reflexivity.
Qed.

(** With a ceiling of 5000: a status line and a line that is ignored, then
    "Session completed", then a line that is never read. *)
Lemma C6_session_completed_witness :
  let job := {| filetype := hashvalues; guesser_pid := 4242;
                analysis_interval := 1000; terminate_guessing := Some 5000 |} in
  let l := "Session completed"%string in
  let pre := [jtr_line; "Warning: only 3 candidates left"%string] in
  let rest := ["900g 4900p 0:00:00:05"%string] in
  classify l = SessionComplete /\
  (forall stdin, l ∉ status_lines (calls_of (execute job stdin))) /\
  exists self, execute job (pre ++ l :: rest) = Finished self /\
    calls self = (ProcessStatusLine <$> progress_lines pre) ++
                 kill_if_ceiling job ++ [GenReport] /\
    status_lines (calls self) = progress_lines pre /\
    count_calls is_kill_guesser (calls self) =
      (if terminate_guessing job is Some _ then 1%nat else 0%nat) /\
    (KillGuesser ∈ calls self <-> terminate_guessing job <> None).
Proof.
  intros job l pre rest.
  eapply (C6_session_completed_not_forwarded job l pre rest);
    [reflexivity | reflexivity | reflexivity | vm_compute; reflexivity].
Defined.

(** ** The candidate counter *)

(** In the plaintext loop every pass adds one to the counter, whether it
    goes on or leaves the loop. *)
Lemma plain_trace job stdin : forall seen self,
  plain_inv job seen self ->
  counter_trace (plaintext_body job) stdin self =
    (fun k => Z.of_nat (length seen) + Z.of_nat k) <$>
      seq 1 (length (counter_trace (plaintext_body job) stdin self)).
Proof.
  unfold counter_trace.
  induction stdin as [|x stdin IH]; intros seen self Hinv; [reflexivity|].
  cbn [visited].
  destruct (ceiling_hit job (Z.of_nat (length seen) + 1)) eqn:Hhit.
  - destruct (plain_break job seen self x Hinv Hhit) as (self0 & -> & _ & _ & _ & _ & Hc).
    cbn. rewrite Hc. reflexivity.
  - destruct (plain_step job seen self x Hinv Hhit) as (self1 & -> & Hinv1).
    rewrite fmap_cons. cbn [length seq]. rewrite fmap_cons. f_equal.
    + destruct Hinv1 as (_ & _ & Hc & _). rewrite Hc, length_app. simpl. lia.
    + rewrite (IH _ _ Hinv1) at 1. rewrite <- (fmap_S_seq 1), <- list_fmap_compose.
      apply list_fmap_ext. intros _ k _. simpl. rewrite length_app. simpl. lia.
Qed.

Lemma handle_close_counter job last_line self :
  match handle_close job last_line self with
  | Finished s | Failed _ s => candidate_counter s = candidate_counter self
  end.
Proof.
  unfold handle_close. destruct (filetype job).
  - destruct (index self >? 0); [|reflexivity].
    destruct (del_each _ _); reflexivity.
  - destruct last_line; reflexivity.
Qed.

Lemma progress_counts_cons x stdin :
  progress_counts (x :: stdin) =
    match classify x with
    | Progress count => count :: progress_counts stdin
    | _ => progress_counts stdin
    end.
Proof. unfold progress_counts. simpl. destruct (classify x); reflexivity. Qed.

Lemma progress_counts_nonneg stdin : Forall (fun count => 0 <= count) (progress_counts stdin).
Proof.
  induction stdin as [|x stdin IH]; [constructor|].
  rewrite progress_counts_cons. destruct (classify x) as [count| |] eqn:Hx; auto.
  constructor; [|exact IH].
  apply classify_progress in Hx as [Hm Hc].
  destruct (coarse_count_total x Hm) as (k & Hk & Hpos). congruence.
Qed.

(** In the status-line loop the counter takes the coarse count of each
    status line in turn, so it does not go down as long as these counts do
    not. *)
Lemma hash_trace job stdin : forall self,
  StronglySorted Z.le (candidate_counter self :: progress_counts stdin) ->
  Sorted Z.le (candidate_counter self :: counter_trace (hash_body job) stdin self).
Proof.
  unfold counter_trace.
  induction stdin as [|x stdin IH]; intros self Hs; [repeat constructor|].
  rewrite progress_counts_cons in Hs. cbn [visited].
  destruct (status_line_re_match x) eqn:Hm.
  - destruct (coarse_count_total x Hm) as (count & Hc & _).
    assert (Hx : classify x = Progress count) by (apply classify_progress; auto).
    rewrite Hx in Hs. apply StronglySorted_inv in Hs as [Hs Hall].
    apply Forall_cons in Hall as [Hle _].
    rewrite (hash_body_progress job x count self Hm Hc).
    destruct (ceiling_passed job count).
    + cbn. repeat constructor. exact Hle.
    + rewrite fmap_cons. constructor; [|constructor; exact Hle].
      apply (IH (do_call _ (set_candidate_counter count (set_line x self)))). exact Hs.
  - assert (Hx : forall k, classify x <> Progress k).
    { intros k [Hk _]%classify_progress. congruence. }
    assert (Hs' : StronglySorted Z.le (candidate_counter self :: progress_counts stdin)).
    { destruct (classify x) as [k| |]; [destruct (Hx k); reflexivity|exact Hs..]. }
    unfold hash_body. rewrite Hm. cbn [negb].
    destruct (Py.contains "Session completed" x).
    + set (s := match terminate_guessing job with Some _ => _ | None => _ end).
      assert (Hcs : candidate_counter s = candidate_counter self)
        by (subst s; destruct (terminate_guessing job); reflexivity).
      pose proof (handle_close_counter job None s) as Hh.
      destruct (handle_close job None s); cbn; rewrite Hh, Hcs;
        repeat constructor; lia.
    + rewrite fmap_cons. constructor; [|constructor; cbn; lia].
      apply (IH (set_line x self)). exact Hs'.
Qed.

(** One pass of the plaintext loop that stores its candidate adds one to
    the counter, whether it goes on or leaves the loop. *)
Lemma plain_pass_counter job candidate self :
  (forall e s, plaintext_body job candidate self <> Raise e s) ->
  counter_trace (plaintext_body job) [candidate] self = [candidate_counter self + 1].
Proof.
  intros Hraise. unfold counter_trace. cbn [visited].
  revert Hraise. unfold plaintext_body.
  destruct (Py.setitem _ _ _) as [buffer|]; [|intros H; destruct (H _ _ eq_refl)].
  intros _. cbn.
  destruct (ceiling_hit job (candidate_counter self + 1)); [reflexivity|].
  destruct (index self + 1 =? analysis_interval job); reflexivity.
Qed.

(** One pass of the status-line loop assigns the coarse count of a status
    line to the counter, whatever the counter held; any other line leaves
    the counter alone. *)
Lemma hash_pass_counter job l self :
  counter_trace (hash_body job) [l] self =
    [match classify l with Progress count => count | _ => candidate_counter self end].
Proof.
  unfold counter_trace. cbn [visited].
  destruct (status_line_re_match l) eqn:Hm.
  - destruct (coarse_count_total l Hm) as (count & Hc & _).
    assert (Hl : classify l = Progress count) by (apply classify_progress; auto).
    rewrite Hl, (hash_body_progress job l count self Hm Hc).
    destruct (ceiling_passed job count); reflexivity.
  - assert (Hl : match classify l with Progress count => count | _ => candidate_counter self end
                 = candidate_counter self).
    { destruct (classify l) as [k| |] eqn:Hk; [|reflexivity..].
      apply classify_progress in Hk as [Hk _]. congruence. }
    rewrite Hl. unfold hash_body. rewrite Hm. cbn [negb].
    destruct (Py.contains "Session completed" l); [|reflexivity].
    set (s := match terminate_guessing job with Some _ => _ | None => _ end).
    assert (Hcs : candidate_counter s = candidate_counter self)
      by (subst s; destruct (terminate_guessing job); reflexivity).
    pose proof (handle_close_counter job None s) as Hh.
    destruct (handle_close job None s); cbn; rewrite Hh, Hcs; reflexivity.
Qed.

(** Over a stream, the counter of the status-line loop is the coarse count
    of the last status line read so far, for as long as the loop runs. *)
Lemma hash_trace_latest job stdin : forall self,
  counter_trace (hash_body job) stdin self =
    take (length (counter_trace (hash_body job) stdin self))
      (latest_counts (candidate_counter self) stdin).
Proof.
  induction stdin as [|x stdin IH]; intros self; [reflexivity|].
  pose proof (hash_pass_counter job x self) as Hpass.
  unfold counter_trace in *. cbn [visited latest_counts] in *.
  destruct (hash_body job x self) as [s|s|s|e s]; cbn in Hpass |- *;
    injection Hpass as <-; [|reflexivity..].
  f_equal. apply IH.
Qed.

(** C9, as amended.  [execute] starts the counter at 0.  In the plaintext
    loop every pass that stores its candidate adds one to the counter, so
    with an interval of at least 1 the counter after the [k]-th pass is
    [k].  In the status-line loop every status line assigns its coarse
    count to the counter, whatever its value before, and no other line
    changes it: after each line the counter is the coarse count of the last
    status line read.  So it does not go down provided the coarse counts of
    the status lines of the stream do not go down; nothing in the loop
    compares a count with the one before. *)
Theorem C9_counter_follows_stream job stdin :
  candidate_counter (execute_init job) = 0 /\
  (forall candidate self,
     (forall e s, plaintext_body job candidate self <> Raise e s) ->
     counter_trace (plaintext_body job) [candidate] self = [candidate_counter self + 1]) /\
  (1 <= analysis_interval job ->
   counter_trace (plaintext_body job) stdin (execute_init job) =
     Z.of_nat <$>
       seq 1 (length (counter_trace (plaintext_body job) stdin (execute_init job)))) /\
  (forall l self,
     counter_trace (hash_body job) [l] self =
       [match classify l with
        | Progress count => count
        | _ => candidate_counter self
        end]) /\
  counter_trace (hash_body job) stdin (execute_init job) =
    take (length (counter_trace (hash_body job) stdin (execute_init job)))
      (latest_counts 0 stdin) /\
  (Sorted Z.le (progress_counts stdin) ->
   Sorted Z.le (0 :: counter_trace (hash_body job) stdin (execute_init job))).
Proof.
  split; [reflexivity|].
  split; [apply plain_pass_counter|]. split.
  { intros Hn. rewrite (plain_trace job stdin [] _ (plain_inv_init job Hn)) at 1.
    apply list_fmap_ext. intros _ k _. simpl. lia. }
  split; [apply hash_pass_counter|].
  split; [apply (hash_trace_latest job stdin (execute_init job))|].
  intros Hsorted. apply (hash_trace job stdin (execute_init job)). cbn.
  constructor; [|apply progress_counts_nonneg].
  apply Sorted_StronglySorted; [|exact Hsorted].
  intros a b c. apply Z.le_trans.
Qed.

(** Interval 2; a stream whose status lines carry the counts 2000 and 4000
    around a line that is no status line.  Read as candidates, its three
    lines take the counter to 1, 2, 3; read as status lines, to 2000, 2000,
    4000. *)
Lemma C9_counter_follows_stream_witness :
  let job := {| filetype := hashvalues; guesser_pid := 4242;
                analysis_interval := 2; terminate_guessing := None |} in
  let stdin := ["10g 2000p 0:00:00:02"; "Loaded 3107 password hashes"; jtr_line]%string in
  counter_trace (plaintext_body job) stdin (execute_init job) = [1; 2; 3] /\
  counter_trace (hash_body job) stdin (execute_init job) = [2000; 2000; 4000] /\
  Sorted Z.le (0 :: counter_trace (hash_body job) stdin (execute_init job)).
Proof.
  intros job stdin.
  destruct (C9_counter_follows_stream job stdin) as (_ & _ & Hplain & _ & Hhash & Hsorted).
  split; [|split].
  - rewrite Hplain by (simpl; lia). reflexivity.
  - rewrite Hhash. reflexivity.
  - apply Hsorted. replace (progress_counts stdin) with [2000; 4000] by reflexivity.
    repeat constructor. lia.
Defined.

(** C9 fails as stated: the status-line loop takes over whatever count a
    status line carries; after a line with 5000 a line with 3000 sets the
    counter back to 3000. *)
Lemma C9_counter_decreases_counterexample :
  let job := {| filetype := hashvalues; guesser_pid := 4242;
                analysis_interval := 1000; terminate_guessing := None |} in
  let stdin := ["1g 5000p 0:00:00:05"; "1g 3000p 0:00:00:06"]%string in
  counter_trace (hash_body job) stdin (execute_init job) = [5000; 3000] /\
  ~ Sorted Z.le (0 :: counter_trace (hash_body job) stdin (execute_init job)).
Proof.
  intros job stdin. split; [reflexivity|].
  replace (counter_trace (hash_body job) stdin (execute_init job))
    with [5000; 3000] by reflexivity.
  intros H. apply Sorted_inv in H as [H _]. apply Sorted_inv in H as [_ H].
  apply HdRel_inv in H. lia.
Qed.

(** ** The report *)

(** The plaintext loop raises nothing when the interval is at least 1, and
    calls neither [gen_report] nor anything but [process_candidates] and
    [kill_guesser]. *)
Lemma plain_loop_quiet job stdin : forall seen self,
  plain_inv job seen self ->
  match for_each (plaintext_body job) stdin self with
  | Next s | Break s =>
      length (received_candidates s) = Z.to_nat (analysis_interval job) /\
      0 <= index s <= analysis_interval job /\
      count_calls is_gen_report (calls s) = 0%nat
  | Return _ | Raise _ _ => False
  end.
Proof.
  induction stdin as [|x stdin IH]; intros seen self Hinv; cbn [for_each].
  - destruct Hinv as (Hlen & Hidx & _ & _ & Hcalls & _).
    rewrite Hcalls, count_calls_batches by reflexivity. repeat split; lia.
  - destruct (ceiling_hit job (Z.of_nat (length seen) + 1)) eqn:Hhit.
    + destruct (plain_break job seen self x Hinv Hhit)
        as (self0 & -> & Hcalls0 & Hlen0 & Hidx0 & _).
      destruct Hinv as (_ & _ & _ & _ & Hcalls & _).
      rewrite Hcalls0, Hcalls, count_calls_app, count_calls_batches by reflexivity.
      repeat split; lia.
    + destruct (plain_step job seen self x Hinv Hhit) as (self1 & -> & Hinv1).
      apply (IH _ _ Hinv1).
Qed.

(** [gen_report] is the last call of a run, and is called once, in
    plaintext mode and, on a stream that is not empty, in hash mode. *)
Lemma gen_report_once job stdin :
  1 <= analysis_interval job ->
  (filetype job = hashvalues -> stdin <> []) ->
  exists self cs, execute job stdin = Finished self /\
    calls self = cs ++ [GenReport] /\
    count_calls is_gen_report cs = 0%nat.
Proof.
  intros Hn Hne. unfold execute. destruct (filetype job) eqn:Hft.
  - pose proof (plain_loop_quiet job stdin [] _ (plain_inv_init job Hn)) as Hq.
    assert (Hend : forall s,
      length (received_candidates s) = Z.to_nat (analysis_interval job) /\
      0 <= index s <= analysis_interval job /\
      count_calls is_gen_report (calls s) = 0%nat ->
      exists self cs, handle_close job None s = Finished self /\
        calls self = cs ++ [GenReport] /\ count_calls is_gen_report cs = 0%nat).
    { intros s (Hlen & Hidx & Hcnt).
      destruct (handle_close_plaintext job None s Hft Hlen Hidx) as (self & Hc & _ & Hcalls).
      exists self, (calls s ++ if index s >? 0 then [ProcessCandidates (live s)] else []).
      split; [exact Hc|]. rewrite Hcalls, <- app_assoc. split; [reflexivity|].
      rewrite count_calls_app, Hcnt. destruct (index s >? 0); reflexivity. }
    destruct (for_each (plaintext_body job) stdin (execute_init job)); auto; destruct Hq.
  - specialize (Hne eq_refl).
    pose proof (hash_loop_stop job Hft stdin (execute_init job)) as Hstop.
    destruct (for_each (hash_body job) stdin (execute_init job)) as [s|s|s|e s] eqn:Hfor.
    + destruct (hash_loop_next job Hft _ _ _ Hfor) as (Hcalls & Hline & _).
      destruct (last stdin) as [x|] eqn:Hlast; [|apply last_None in Hlast; contradiction].
      rewrite Hline, (handle_close_hash job x s Hft).
      eexists _, (calls s ++ [ProcessStatusLine x]). split; [reflexivity|].
      split; [reflexivity|].
      rewrite Hcalls, !count_calls_app, count_calls_status_lines by reflexivity.
      reflexivity.
    + destruct Hstop as (pre & x & rest & count & self1 & -> & Hpre & _ & _ & ->).
      destruct (hash_loop_next job Hft _ _ _ Hpre) as (Hcalls & _ & _).
      cbn [line set_line do_call set_candidate_counter].
      rewrite (handle_close_hash job x _ Hft).
      eexists _, ((calls self1 ++ [KillGuesser]) ++ [ProcessStatusLine x]).
      split; [reflexivity|]. split; [reflexivity|].
      rewrite Hcalls, !count_calls_app, count_calls_status_lines by reflexivity.
      reflexivity.
    + destruct Hstop as (pre & x & rest & self1 & -> & Hpre & _ & Hcalls).
      destruct (hash_loop_next job Hft _ _ _ Hpre) as (Hcalls1 & _ & _).
      exists s, (calls self1 ++ kill_if_ceiling job). split; [reflexivity|].
      rewrite Hcalls, <- app_assoc. split; [reflexivity|].
      rewrite Hcalls1, !count_calls_app, count_calls_status_lines by reflexivity.
      unfold kill_if_ceiling. destruct (terminate_guessing job); reflexivity.
    + destruct Hstop.
Qed.

(** C4, the extent to which it holds.  With an interval of at least 1, a
    run ends normally with [gen_report] as its last call and its only call
    of [gen_report] exactly when it is not a hash-mode run on the empty
    stream; on that input the run fails before [gen_report]. *)
Theorem C4_gen_report_once_unless_empty_hash_stream job stdin :
  1 <= analysis_interval job ->
  ((exists self, execute job stdin = Finished self) /\
   last (calls_of (execute job stdin)) = Some GenReport /\
   count_calls is_gen_report (calls_of (execute job stdin)) = 1%nat)
  <-> ~ (filetype job = hashvalues /\ stdin = []).
Proof.
  intros Hn. split.
  - intros ([self Hrun] & _) [Hft ->]. unfold execute in Hrun. rewrite Hft in Hrun.
    discriminate Hrun.
  - intros Hne. destruct (gen_report_once job stdin Hn) as (self & cs & Hrun & Hcalls & Hcnt).
    { intros Hft ->. apply Hne. auto. }
    rewrite Hrun. cbn [calls_of].
    rewrite Hcalls, last_snoc, count_calls_app, Hcnt. eauto.
Qed.

(** Hash mode, empty stream: the left side fails. *)
Lemma C4_gen_report_missing_witness :
  let job := {| filetype := hashvalues; guesser_pid := 4242;
                analysis_interval := 1000; terminate_guessing := Some 10000 |} in
  ((exists self, execute job [] = Finished self) /\
   last (calls_of (execute job [])) = Some GenReport /\
   count_calls is_gen_report (calls_of (execute job [])) = 1%nat)
  <-> ~ (filetype job = hashvalues /\ @nil string = []).
Proof.
  intros job. apply (C4_gen_report_once_unless_empty_hash_stream job []).
  simpl. lia.
Defined.

(** ** Killing the process tree *)

Lemma kill_children_ok os children : forall sent,
  (forall q, q ∈ children -> child_name os q = None /\ os_kill os q = true) ->
  kill_children os children sent = (sent ++ children, None).
Proof.
  induction children as [|c children IH]; intros sent Hok; simpl.
  - rewrite app_nil_r. reflexivity.
  - destruct (Hok c) as [-> ->]; [apply elem_of_cons; auto|].
    rewrite IH by (intros q Hq; apply Hok, elem_of_cons; auto).
    rewrite <- app_assoc. reflexivity.
Qed.

(** The loop over the children ends at the first [os.kill] that raises. *)
Lemma kill_children_fail os pre d post : forall sent,
  (forall q, q ∈ pre -> child_name os q = None /\ os_kill os q = true) ->
  child_name os d = None ->
  os_kill os d = false ->
  kill_children os (pre ++ d :: post) sent = (sent ++ pre ++ [d], Some OSError).
Proof.
  induction pre as [|c pre IH]; intros sent Hok Hn Hd; simpl.
  - rewrite Hn, Hd. reflexivity.
  - destruct (Hok c) as [-> ->]; [apply elem_of_cons; auto|].
    rewrite IH by (auto; intros q Hq; apply Hok, elem_of_cons; auto).
    rewrite <- app_assoc. reflexivity.
Qed.

(** The loop over the children also ends at the first log line that
    raises, before the signal for that child. *)
Lemma kill_children_name os pre d post e : forall sent,
  (forall q, q ∈ pre -> child_name os q = None /\ os_kill os q = true) ->
  child_name os d = Some e ->
  kill_children os (pre ++ d :: post) sent = (sent ++ pre, Some e).
Proof.
  induction pre as [|c pre IH]; intros sent Hok Hn; simpl.
  - rewrite Hn, app_nil_r. reflexivity.
  - destruct (Hok c) as [-> ->]; [apply elem_of_cons; auto|].
    rewrite IH by (auto; intros q Hq; apply Hok, elem_of_cons; auto).
    rewrite <- app_assoc. reflexivity.
Qed.

(** C5.  [kill_guesser] stops at the first failure; it does not go on
    with the remaining processes, as the claim and the docstring of
    [kill_guesser] ("Sends a 'SIGKILL' signal to all processes spawned by
    the guesser.sh file") have it.  For a root that is found and has two
    direct children with one child each, whatever the order [ds] in which
    psutil lists the four descendants: when nothing fails on them, exactly
    5 signals are attempted, the descendants first, in that order, and the
    root last.  A failure on a descendant ends the loop over the
    descendants and is never raised to the caller: when [os.kill] fails on
    it, the exception is logged and no further signal is attempted, neither
    for the descendants listed after it nor for the root; when the log line
    of psutil 1 finds it gone ([psutil.NoSuchProcess]), it and the
    descendants after it are not signalled and the root is. *)
Theorem C5_kill_guesser_stops_at_first_failure os r a a' b b' ds :
  psutil_Process os r = true ->
  children_recursive os r = Some ds ->
  ds ≡ₚ [a; a'; b; b'] ->
  ((forall q, q ∈ ds -> child_name os q = None /\ os_kill os q = true) ->
     signalled (kill_guesser os r) = ds ++ [r] /\
     length (signalled (kill_guesser os r)) = 5%nat /\
     logged (kill_guesser os r) = if os_kill os r then None else Some OSError) /\
  (forall pre d post,
     ds = pre ++ d :: post ->
     (forall q, q ∈ pre -> child_name os q = None /\ os_kill os q = true) ->
     (child_name os d = None -> os_kill os d = false ->
        kill_guesser os r = {| signalled := pre ++ [d]; logged := Some OSError |} /\
        (length (signalled (kill_guesser os r)) < 5)%nat /\
        (r ∉ ds -> r ∉ signalled (kill_guesser os r)) /\
        (NoDup ds -> forall q, q ∈ post -> q ∉ signalled (kill_guesser os r))) /\
     (child_name os d = Some NoSuchProcess ->
        signalled (kill_guesser os r) = pre ++ [r] /\
        (length (signalled (kill_guesser os r)) < 5)%nat)).
Proof.
  intros Hfound Hkids Hperm.
  assert (Hfour : length ds = 4%nat) by (rewrite Hperm; reflexivity).
  unfold kill_guesser. rewrite Hfound, Hkids.
  split.
  - intros Hok. rewrite (kill_children_ok os _ [] Hok). cbn.
    destruct (os_kill os r); cbn; rewrite length_app, Hfour; auto.
  - intros pre d post Hsplit Hok. rewrite Hsplit.
    assert (Hlen : (length pre + S (length post) = 4)%nat).
    { rewrite Hsplit, length_app in Hfour. simpl in Hfour. lia. }
    split.
    + intros Hn Hd. rewrite (kill_children_fail os pre d post [] Hok Hn Hd). cbn.
      split; [reflexivity|]. split; [rewrite length_app; simpl; lia|]. split.
      * intros Hr Hin. apply Hr.
        rewrite cons_middle, app_assoc. apply elem_of_app. left. exact Hin.
      * rewrite cons_middle, app_assoc. intros Hnd q Hq Hin.
        apply NoDup_app in Hnd as (_ & Hdisj & _).
        exact (Hdisj q Hin Hq).
    + intros Hn. rewrite (kill_children_name os pre d post _ [] Hok Hn). cbn.
      destruct (os_kill os r); cbn; rewrite length_app; simpl; split;
        (reflexivity || lia).
Qed.

(** Root 1 with the children 2 (child 3) and 4 (child 5), listed by psutil
    as 2, 4, 5, 3: all five are signalled when no kill fails; with process
    4 gone, only 2 and 4 are. *)
Lemma C5_kill_guesser_witness :
  signalled (kill_guesser (listed_table 1 [2; 4; 5; 3] []) 1) = [2; 4; 5; 3; 1] /\
  kill_guesser (listed_table 1 [2; 4; 5; 3] [4]) 1 =
    {| signalled := [2; 4]; logged := Some OSError |}.
Proof.
  assert (Hperm : [2; 4; 5; 3] ≡ₚ [2; 3; 4; 5]).
  { constructor. symmetry. apply (Permutation_cons_append [4; 5] 3). }
  split.
  - apply (proj1 (C5_kill_guesser_stops_at_first_failure
                    (listed_table 1 [2; 4; 5; 3] []) 1 2 3 4 5 [2; 4; 5; 3]
                    eq_refl eq_refl Hperm)).
    intros q _. split; [reflexivity|]. apply bool_decide_eq_true, not_elem_of_nil.
  - apply (proj2 (C5_kill_guesser_stops_at_first_failure
                    (listed_table 1 [2; 4; 5; 3] [4]) 1 2 3 4 5 [2; 4; 5; 3]
                    eq_refl eq_refl Hperm)
             [2] 4 [5; 3]); [reflexivity | | reflexivity | reflexivity].
    intros q ->%list_elem_of_singleton. split; reflexivity.
Defined.

(** C5 fails as stated: with process 4 already gone, 2 signals are
    attempted, not 5; the processes 5 and 3 and the root 1, on which
    [os.kill] would succeed, are not signalled. *)
Lemma C5_kill_failure_aborts_counterexample :
  let os := listed_table 1 [2; 4; 5; 3] [4] in
  psutil_Process os 1 = true /\
  children_recursive os 1 = Some [2; 4; 5; 3] /\
  signalled (kill_guesser os 1) = [2; 4] /\
  ~ (length (signalled (kill_guesser os 1)) = 5%nat) /\
  Forall (fun q => os_kill os q = true /\ q ∉ signalled (kill_guesser os 1))
    [5; 3; 1].
Proof.
  intros os. repeat split; try reflexivity.
  - discriminate.
  - repeat constructor;
      intros H; change (signalled (kill_guesser os _)) with [2; 4] in H;
      rewrite !elem_of_cons, elem_of_nil in H; lia.
Qed.

(** ** The stored candidate *)

(** A pass of the plaintext loop that raises nothing has written
    [candidate[:-1]] into the slot at the write index. *)
Lemma plaintext_body_stores job candidate self self' :
  plaintext_body job candidate self = Next self' \/
  plaintext_body job candidate self = Break self' ->
  received_candidates self' !! Z.to_nat (index self) = Some (stored candidate).
Proof.
  unfold plaintext_body, Py.setitem. fold (stored candidate).
  destruct ((0 <=? index self) && (index self <? Z.of_nat (length (received_candidates self))))
    eqn:Hrange; [|intros [[=]|[=]]].
  apply andb_prop in Hrange as [Hlo Hhi].
  apply Z.leb_le in Hlo. apply Z.ltb_lt in Hhi. cbn.
  destruct (ceiling_hit job _); [|destruct (_ =? _)];
    intros [[= <-]|[= <-]]; cbn; apply list_lookup_insert_eq; lia.
Qed.

(** C8, what the code does.  Line 120 stores the line without its last
    character, whatever that character is: a line that ends with a newline
    is stored without the newline, and a line that does not (the last line
    of a stream) is stored without its last character, not unchanged: the
    line [abc] reaches [process_candidates] as [ab]. *)
Theorem C8_last_character_dropped_newline_or_not :
  (forall job c ch self self',
     plaintext_body job (c ++ String ch EmptyString) self = Next self' \/
     plaintext_body job (c ++ String ch EmptyString) self = Break self' ->
     received_candidates self' !! Z.to_nat (index self) = Some (Some c)) /\
  (forall c, stored (c ++ nl) = Some c) /\
  let job := {| filetype := plaintext; guesser_pid := 4242;
                analysis_interval := 1; terminate_guessing := None |} in
  calls_of (execute job ["abc"%string]) =
    [ProcessCandidates [Some "ab"%string]; GenReport] /\
  stored "abc" <> Some "abc"%string.
Proof.
  split.
  - intros job c ch self self' H.
    rewrite (plaintext_body_stores job _ self self' H).
    unfold stored. rewrite slice_drops_last. reflexivity.
  - split; [exact stored_newline|]. split; [reflexivity|discriminate].
Qed.

(** * Further properties of the code *)

(** ** What a run calls *)

(** The calls of the plaintext loop, for any interval: batches, then
    [kill_guesser] if the loop is left by [break], which takes a ceiling. *)
Lemma plain_loop_calls job stdin : forall self,
  match for_each (plaintext_body job) stdin self with
  | Next s => exists bs, calls s = calls self ++ (ProcessCandidates <$> bs)
  | Break s =>
      terminate_guessing job <> None /\
      exists bs, calls s = calls self ++ (ProcessCandidates <$> bs) ++ [KillGuesser]
  | Return _ => False
  | Raise e s =>
      e = IndexError /\ exists bs, calls s = calls self ++ (ProcessCandidates <$> bs)
  end.
Proof.
  induction stdin as [|x stdin IH]; intros self; cbn [for_each].
  - exists []. rewrite app_nil_r. reflexivity.
  - unfold plaintext_body.
    destruct (Py.setitem _ _ _) as [buffer|]; cbn;
      [|split; [reflexivity|exists []; rewrite app_nil_r; reflexivity]].
    destruct (ceiling_hit job (candidate_counter self + 1)) eqn:Hhit.
    + split; [|exists []; reflexivity].
      unfold ceiling_hit in Hhit. destruct (terminate_guessing job); discriminate.
    + destruct (index self + 1 =? analysis_interval job);
        match goal with
        | |- context [for_each _ stdin ?s] =>
            specialize (IH s); destruct (for_each _ stdin s) as [s'|s'|s'|e s']
        end; cbn in IH; try exact IH.
      * destruct IH as [bs ->]. eexists (_ :: bs). rewrite <- app_assoc. reflexivity.
      * destruct IH as [Htg [bs ->]]. split; [exact Htg|].
        eexists (_ :: bs). rewrite <- app_assoc. reflexivity.
      * destruct IH as [-> [bs ->]]. split; [reflexivity|].
        eexists (_ :: bs). rewrite <- app_assoc. reflexivity.
Qed.

(** What [handle_close] adds to the calls: the report, after at most one
    call that hands over data; nothing when it raises. *)
Lemma handle_close_calls job last_line self :
  exists tail, calls_of (handle_close job last_line self) = calls self ++ tail /\
    (tail = [] \/ tail = [GenReport] \/
     exists c, tail = [c; GenReport] /\
       match filetype job with
       | plaintext => exists b, c = ProcessCandidates b
       | hashvalues => exists l, c = ProcessStatusLine l
       end).
Proof.
  unfold handle_close. destruct (filetype job).
  - destruct (index self >? 0).
    + destruct (del_each _ _) as [buffer|]; cbn.
      * eexists [_; _]. rewrite <- app_assoc. split; [reflexivity|]. eauto 6.
      * exists []. rewrite app_nil_r. auto.
    + exists [GenReport]. auto.
  - destruct last_line as [l|]; cbn.
    + eexists [_; _]. rewrite <- app_assoc. split; [reflexivity|]. eauto 6.
    + exists [GenReport]. auto.
Qed.

(** The calls of the status-line loop: status lines, then [kill_guesser]
    if the loop is left by [break], or the optional [kill_guesser] and the
    report if it is left by [return]. *)
Lemma hash_loop_calls job stdin :
  filetype job = hashvalues ->
  match for_each (hash_body job) stdin (execute_init job) with
  | Next s => calls s = ProcessStatusLine <$> progress_lines stdin
  | Break s =>
      terminate_guessing job <> None /\
      exists pre, calls s = (ProcessStatusLine <$> progress_lines pre) ++ [KillGuesser]
  | Return s =>
      exists pre, calls s = (ProcessStatusLine <$> progress_lines pre) ++
                            kill_if_ceiling job ++ [GenReport]
  | Raise _ _ => False
  end.
Proof.
  intros Hft.
  pose proof (hash_loop_stop job Hft stdin (execute_init job)) as Hstop.
  destruct (for_each (hash_body job) stdin (execute_init job)) as [s|s|s|e s] eqn:Hfor.
  - destruct (hash_loop_next job Hft _ _ _ Hfor) as (Hcalls & _). exact Hcalls.
  - destruct Hstop as (pre & x & rest & count & self1 & _ & Hpre & _ & Hp & ->).
    destruct (hash_loop_next job Hft _ _ _ Hpre) as (Hcalls & _).
    split.
    + unfold ceiling_passed in Hp. destruct (terminate_guessing job); discriminate.
    + exists pre. cbn. rewrite Hcalls. reflexivity.
  - destruct Hstop as (pre & x & rest & self1 & _ & Hpre & _ & Hcalls).
    destruct (hash_loop_next job Hft _ _ _ Hpre) as (Hcalls1 & _).
    exists pre. rewrite Hcalls, Hcalls1. reflexivity.
  - exact Hstop.
Qed.

Lemma status_lines_of_batches bs : status_lines (ProcessCandidates <$> bs) = [].
Proof. induction bs as [|b bs IH]; [reflexivity|exact IH]. Qed.

Lemma batches_of_status_lines ls : batches (ProcessStatusLine <$> ls) = [].
Proof. induction ls as [|l ls IH]; [reflexivity|exact IH]. Qed.

(** X5. Whatever the mode, the interval, the ceiling and the stream, the
    calls of a run are: calls that hand over data (only
    [process_candidates] in plaintext mode, only [process_status_line] in
    hash mode), then at most one call of [kill_guesser], and that only when
    a ceiling is configured, then at most one more call that hands over
    data, then at most one call of [gen_report], which is the last call.
    So [kill_guesser] is called at most once, and never without a
    ceiling. *)
Theorem X5_calls_of_a_run job stdin :
  (exists data kill tail,
     calls_of (execute job stdin) = data ++ kill ++ tail /\
     match filetype job with
     | plaintext => exists bs, data = ProcessCandidates <$> bs
     | hashvalues => exists ls, data = ProcessStatusLine <$> ls
     end /\
     (kill = [] \/ kill = [KillGuesser] /\ terminate_guessing job <> None) /\
     (tail = [] \/ tail = [GenReport] \/
      exists c, tail = [c; GenReport] /\
        match filetype job with
        | plaintext => exists b, c = ProcessCandidates b
        | hashvalues => exists l, c = ProcessStatusLine l
        end)) /\
  (count_calls is_kill_guesser (calls_of (execute job stdin)) <= 1)%nat /\
  (terminate_guessing job = None ->
   count_calls is_kill_guesser (calls_of (execute job stdin)) = 0%nat) /\
  match filetype job with
  | plaintext => status_lines (calls_of (execute job stdin)) = []
  | hashvalues => batches (calls_of (execute job stdin)) = []
  end.
Proof.
  assert (Hshape : exists data kill tail,
     calls_of (execute job stdin) = data ++ kill ++ tail /\
     match filetype job with
     | plaintext => exists bs, data = ProcessCandidates <$> bs
     | hashvalues => exists ls, data = ProcessStatusLine <$> ls
     end /\
     (kill = [] \/ kill = [KillGuesser] /\ terminate_guessing job <> None) /\
     (tail = [] \/ tail = [GenReport] \/
      exists c, tail = [c; GenReport] /\
        match filetype job with
        | plaintext => exists b, c = ProcessCandidates b
        | hashvalues => exists l, c = ProcessStatusLine l
        end)).
  { unfold execute. destruct (filetype job) eqn:Hft.
    - pose proof (plain_loop_calls job stdin (execute_init job)) as Hloop.
      destruct (for_each (plaintext_body job) stdin (execute_init job)) as [s|s|s|e s].
      + destruct Hloop as [bs Hs].
        destruct (handle_close_calls job None s) as (tail & Hc & Htail).
        rewrite Hft in Htail. exists (ProcessCandidates <$> bs), [], tail.
        split; [rewrite Hc, Hs; reflexivity|eauto 8].
      + destruct Hloop as [Htg [bs Hs]].
        destruct (handle_close_calls job None s) as (tail & Hc & Htail).
        rewrite Hft in Htail. exists (ProcessCandidates <$> bs), [KillGuesser], tail.
        split; [rewrite Hc, Hs, <- !app_assoc; reflexivity|eauto 8].
      + destruct Hloop.
      + destruct Hloop as [_ [bs Hs]].
        exists (ProcessCandidates <$> bs), [], [].
        split; [cbn [calls_of]; rewrite Hs, !app_nil_r; reflexivity|eauto 8].
    - pose proof (hash_loop_calls job stdin Hft) as Hloop.
      destruct (for_each (hash_body job) stdin (execute_init job)) as [s|s|s|e s].
      + destruct (line s) as [l|].
        * destruct (handle_close_calls job (Some l) s) as (tail & Hc & Htail).
          rewrite Hft in Htail. exists (ProcessStatusLine <$> progress_lines stdin), [], tail.
          split; [rewrite Hc, Hloop; reflexivity|eauto 8].
        * exists (ProcessStatusLine <$> progress_lines stdin), [], [].
          split; [cbn [calls_of]; rewrite Hloop, !app_nil_r; reflexivity|eauto 8].
      + destruct Hloop as [Htg [pre Hs]]. destruct (line s) as [l|].
        * destruct (handle_close_calls job (Some l) s) as (tail & Hc & Htail).
          rewrite Hft in Htail.
          exists (ProcessStatusLine <$> progress_lines pre), [KillGuesser], tail.
          split; [rewrite Hc, Hs, <- !app_assoc; reflexivity|eauto 8].
        * exists (ProcessStatusLine <$> progress_lines pre), [KillGuesser], [].
          split; [cbn [calls_of]; rewrite Hs, !app_nil_r; reflexivity|eauto 8].
      + destruct Hloop as [pre Hs].
        exists (ProcessStatusLine <$> progress_lines pre), (kill_if_ceiling job), [GenReport].
        split; [cbn [calls_of]; rewrite Hs; reflexivity|]. split; [eauto|]. split; [|auto].
        unfold kill_if_ceiling. destruct (terminate_guessing job); [right|left]; auto.
      + destruct Hloop. }
  split; [exact Hshape|].
  destruct Hshape as (data & kill & tail & -> & Hdata & Hkill & Htail).
  assert (Hd : count_calls is_kill_guesser data = 0%nat).
  { destruct (filetype job); destruct Hdata as [xs ->].
    - apply count_calls_batches. reflexivity.
    - apply count_calls_status_lines. reflexivity. }
  assert (Ht : count_calls is_kill_guesser tail = 0%nat).
  { destruct Htail as [->|[->|(c & -> & Hc)]]; try reflexivity.
    destruct (filetype job); destruct Hc as [x ->]; reflexivity. }
  rewrite !count_calls_app, Hd, Ht.
  split.
  { destruct Hkill as [->|[-> _]];
      [change (count_calls is_kill_guesser []) with 0%nat
      |change (count_calls is_kill_guesser [KillGuesser]) with 1%nat]; lia. }
  split; [intros Hnone; destruct Hkill as [->|[-> Hne]]; [reflexivity|contradiction]|].
  destruct (filetype job); destruct Hdata as [xs ->].
  - rewrite !status_lines_app.
    rewrite status_lines_of_batches. destruct Hkill as [->|[-> _]];
      destruct Htail as [->|[->|(c & -> & [b ->])]]; reflexivity.
  - rewrite !batches_app.
    rewrite batches_of_status_lines. destruct Hkill as [->|[-> _]];
      destruct Htail as [->|[->|(c & -> & [b ->])]]; reflexivity.
Qed.

(** ** When a run fails *)

(** In hash mode a stream that is not empty always ends normally, whatever
    the interval. *)
Lemma hash_run_finishes job stdin :
  filetype job = hashvalues -> stdin <> [] ->
  exists self, execute job stdin = Finished self.
Proof.
  intros Hft Hne. unfold execute. rewrite Hft.
  pose proof (hash_loop_stop job Hft stdin (execute_init job)) as Hstop.
  destruct (for_each (hash_body job) stdin (execute_init job)) as [s|s|s|e s] eqn:Hfor.
  - destruct (hash_loop_next job Hft _ _ _ Hfor) as (_ & Hline & _).
    destruct (last stdin) as [x|] eqn:Hlast; [|apply last_None in Hlast; contradiction].
    rewrite Hline, (handle_close_hash job x s Hft). eauto.
  - destruct Hstop as (pre & x & rest & count & self1 & _ & _ & _ & _ & ->).
    cbn [line set_line do_call set_candidate_counter].
    rewrite (handle_close_hash job x _ Hft). eauto.
  - eauto.
  - destruct Hstop.
Qed.

(** X3. A run fails in exactly two situations: in plaintext mode when the
    interval is not positive and the stream is not empty (the first write
    into the buffer, which has no slot, raises [IndexError]), and in hash
    mode when the stream is empty ([line] is unbound).  A run that fails
    has changed nothing and made no call: no candidate was handed over, the
    guesser was not killed and no report was generated. *)
Theorem X3_execute_fails_exactly job stdin :
  ((exists e self, execute job stdin = Failed e self) <->
   (filetype job = plaintext /\ analysis_interval job <= 0 /\ stdin <> []) \/
   (filetype job = hashvalues /\ stdin = [])) /\
  (forall e self, execute job stdin = Failed e self ->
     self = execute_init job /\ calls self = [] /\
     e = match filetype job with
         | plaintext => IndexError
         | hashvalues => UnboundLocalError
         end).
Proof.
  assert (Hcases :
    (exists self, execute job stdin = Finished self) \/
    (execute job stdin =
       Failed (match filetype job with
               | plaintext => IndexError
               | hashvalues => UnboundLocalError
               end) (execute_init job) /\
     ((filetype job = plaintext /\ analysis_interval job <= 0 /\ stdin <> []) \/
      (filetype job = hashvalues /\ stdin = [])))).
  { destruct (filetype job) eqn:Hft.
    - destruct (Z_le_gt_dec (analysis_interval job) 0) as [Hn|Hn].
      + destruct stdin as [|x rest].
        * left. unfold execute, handle_close. rewrite Hft. cbn. eauto.
        * right. split; [|left; auto]. unfold execute. rewrite Hft. cbn [for_each].
          unfold plaintext_body, Py.setitem. cbn [execute_init received_candidates index].
          rewrite length_replicate.
          replace (Z.to_nat (analysis_interval job)) with 0%nat by lia. reflexivity.
      + left. destruct (gen_report_once job stdin) as (self & _ & Hrun & _);
          [lia|congruence|eauto].
    - destruct stdin as [|x rest].
      + right. split; [|right; auto]. unfold execute. rewrite Hft. reflexivity.
      + left. apply hash_run_finishes; [exact Hft|discriminate]. }
  split.
  - split.
    + intros (e & self & Hfail). destruct Hcases as [[s Hs]|[_ H]]; [congruence|exact H].
    + intros H. destruct Hcases as [[s Hs]|[Hfail _]]; [|eauto].
      destruct H as [(Hft & Hn & Hne)|(Hft & ->)].
      * exfalso. destruct stdin as [|x rest]; [contradiction|].
        unfold execute in Hs. rewrite Hft in Hs. cbn [for_each] in Hs.
        unfold plaintext_body, Py.setitem in Hs.
        cbn [execute_init received_candidates index] in Hs.
        rewrite length_replicate in Hs.
        replace (Z.to_nat (analysis_interval job)) with 0%nat in Hs by lia.
        discriminate Hs.
      * unfold execute in Hs. rewrite Hft in Hs. discriminate Hs.
  - intros e self Hfail. destruct Hcases as [[s Hs]|[Hf _]]; [congruence|].
    rewrite Hf in Hfail. injection Hfail as <- <-. auto.
Qed.

(** ** The batches of a plaintext run *)

(** The end of a plaintext run from a state whose full batches and live
    slots hold the candidates [seen]: the live slots go out as a last
    batch, and [ceil(|seen| / n)] batches have gone out in all. *)
Lemma plain_finish job s seen :
  filetype job = plaintext ->
  1 <= analysis_interval job ->
  length (received_candidates s) = Z.to_nat (analysis_interval job) ->
  0 <= index s <= analysis_interval job ->
  Forall (fun b => Z.of_nat (length b) = analysis_interval job) (batches (calls s)) ->
  concat (batches (calls s)) ++ live s = stored <$> seen ->
  exists self, handle_close job None s = Finished self /\
    calls self = calls s ++
      (if index s >? 0 then [ProcessCandidates (live s)] else []) ++ [GenReport] /\
    batches (calls self) =
      batches (calls s) ++ (if index s >? 0 then [live s] else []) /\
    concat (batches (calls self)) = stored <$> seen /\
    Z.of_nat (length (live s)) = index s.
Proof.
  intros Hft Hn Hlen Hidx Hfull Hcat.
  destruct (handle_close_plaintext job None s Hft Hlen Hidx) as (self & Hclose & _ & Hc).
  assert (Hlive : Z.of_nat (length (live s)) = index s)
    by (unfold live; rewrite length_take; lia).
  assert (Hb : batches (calls self) =
               batches (calls s) ++ (if index s >? 0 then [live s] else [])).
  { rewrite Hc, !batches_app.
    destruct (index s >? 0); simpl; rewrite ?app_nil_r; reflexivity. }
  exists self. repeat split; try assumption.
  rewrite Hb, concat_app, <- Hcat. f_equal.
  destruct (index s >? 0) eqn:E; simpl; [apply app_nil_r|].
  unfold live. replace (Z.to_nat (index s)) with 0%nat by lia. reflexivity.
Qed.

(** A plaintext run that hits its ceiling: full batches, [kill_guesser],
    the last batch, the report. *)
Lemma plain_run_hit job stdin c :
  filetype job = plaintext ->
  1 <= analysis_interval job ->
  terminate_guessing job = Some c ->
  1 <= c <= Z.of_nat (length stdin) ->
  exists self bs b,
    execute job stdin = Finished self /\
    calls self = (ProcessCandidates <$> bs) ++
                 [KillGuesser; ProcessCandidates b; GenReport] /\
    Forall (fun b' => Z.of_nat (length b') = analysis_interval job) bs /\
    0 < Z.of_nat (length b) <= analysis_interval job /\
    concat bs ++ b = stored <$> take (Z.to_nat c) stdin.
Proof.
  intros Hft Hn Htg Hc.
  destruct (split_at_ceiling stdin c Hc) as (x & rest & Hsplit & Htake).
  set (pre := take (Z.to_nat (c - 1)) stdin) in *.
  assert (Hpre : Z.of_nat (length pre) = c - 1)
    by (subst pre; rewrite length_take; lia).
  destruct (plain_loop job pre [] (execute_init job) (plain_inv_init job Hn))
    as (self1 & Hloop & Hinv & _).
  { intros k Hk. unfold ceiling_hit. rewrite Htg. apply Z.eqb_neq. simpl. lia. }
  simpl in Hinv.
  destruct (plain_break job pre self1 x Hinv)
    as (self0 & Hbody & Hcalls0 & Hlen0 & Hidx0 & Hlive0 & Hcnt0).
  { unfold ceiling_hit. rewrite Htg. apply Z.eqb_eq. lia. }
  destruct Hinv as (_ & _ & _ & _ & Hcalls1 & Hfull & Hcat).
  assert (Hb0 : batches (calls self0) = batches (calls self1)).
  { rewrite Hcalls0, batches_app. apply app_nil_r. }
  destruct (plain_finish job self0 (pre ++ [x]) Hft Hn Hlen0) as
    (self & Hclose & Hcalls & _ & _ & Hlen);
    [lia | rewrite Hb0; exact Hfull
    | rewrite Hb0, Hlive0, app_assoc, Hcat, fmap_app; reflexivity |].
  replace (index self0 >? 0) with true in Hcalls by (symmetry; apply Z.gtb_lt; lia).
  exists self, (batches (calls self1)), (live self0). split.
  { unfold execute. rewrite Hft, Hsplit, (for_each_app _ _ _ _ _ Hloop).
    cbn [for_each]. rewrite Hbody. exact Hclose. }
  split. { rewrite Hcalls, Hcalls0, <- Hcalls1, <- !app_assoc. reflexivity. }
  assert (Hall : concat (batches (calls self1)) ++ live self0 = stored <$> (pre ++ [x])).
  { rewrite Hlive0, app_assoc, Hcat, fmap_app. reflexivity. }
  split; [exact Hfull|]. split; [lia|].
  rewrite Hall, Htake. reflexivity.
Qed.

(** A plaintext run that never hits its ceiling: batches, the last one
    possibly short, then the report. *)
Lemma plain_run_unhit job stdin :
  filetype job = plaintext ->
  1 <= analysis_interval job ->
  never_hit job (Z.of_nat (length stdin)) ->
  exists self, execute job stdin = Finished self /\
    calls self = (ProcessCandidates <$> batches (calls self)) ++ [GenReport] /\
    concat (batches (calls self)) = stored <$> stdin /\
    Forall (fun b => 0 < Z.of_nat (length b) <= analysis_interval job)
      (batches (calls self)).
Proof.
  intros Hft Hn Hnever.
  destruct (plain_loop job stdin [] (execute_init job) (plain_inv_init job Hn))
    as (self1 & Hloop & Hinv & _).
  { intros k Hk. apply (never_hit_ceiling job (Z.of_nat (length stdin)));
      [exact Hnever | simpl; lia]. }
  simpl in Hinv.
  destruct Hinv as (Hlen & Hidx & _ & _ & Hcalls & Hfull & Hcat).
  destruct (plain_finish job self1 stdin Hft Hn Hlen) as
    (self & Hclose & Hc & Hb & Hcat' & Hlive);
    [lia | exact Hfull | exact Hcat |].
  exists self. split.
  { unfold execute. rewrite Hft, Hloop. exact Hclose. }
  split.
  { rewrite Hb, Hc, fmap_app, <- Hcalls.
    destruct (index self1 >? 0); simpl; rewrite <- ?app_assoc; reflexivity. }
  split; [exact Hcat'|].
  rewrite Hb. apply Forall_app. split.
  - eapply Forall_impl; [exact Hfull|]. intros b Hb'. simpl in Hb'. lia.
  - destruct (index self1 >? 0) eqn:E; constructor; [lia|constructor].
Qed.



(** X1. In plaintext mode with an interval [n >= 1] the run ends normally
    whatever the ceiling and the stream, and [process_candidates] is never
    called with an empty batch, nor with more than [n] entries, nor with a
    [None] left over from the initial buffer: every entry of every batch is
    what line 120 stored for a line of the stream. *)
Theorem X1_plaintext_batches_never_empty job stdin :
  filetype job = plaintext ->
  1 <= analysis_interval job ->
  exists self, execute job stdin = Finished self /\
    forall b, b ∈ batches (calls self) ->
      b <> [] /\ Z.of_nat (length b) <= analysis_interval job /\
      forall e, e ∈ b -> exists x, x ∈ stdin /\ e = Some (Py.slice_to_neg 1 x).
Proof.
  intros Hft Hn.
  assert (Hrun : exists self k, execute job stdin = Finished self /\
            concat (batches (calls self)) = stored <$> take k stdin /\
            Forall (fun b => 0 < Z.of_nat (length b) <= analysis_interval job)
              (batches (calls self))).
  { destruct (terminate_guessing job) as [c|] eqn:Htg.
    - destruct (Z_lt_le_dec c 1) as [Hlow|Hlow];
        [|destruct (Z_lt_le_dec (Z.of_nat (length stdin)) c) as [Hhigh|Hhigh]].
      + destruct (plain_run_unhit job stdin Hft Hn) as (self & Hrun & _ & Hcat & Hall).
        { unfold never_hit. rewrite Htg. auto. }
        exists self, (length stdin). rewrite firstn_all. auto.
      + destruct (plain_run_unhit job stdin Hft Hn) as (self & Hrun & _ & Hcat & Hall).
        { unfold never_hit. rewrite Htg. auto. }
        exists self, (length stdin). rewrite firstn_all. auto.
      + destruct (plain_run_hit job stdin c Hft Hn Htg) as
          (self & bs & b & Hrun & Hcalls & Hfull & Hb & Hcat); [lia|].
        assert (Hbs : batches (calls self) = bs ++ [b]).
        { rewrite Hcalls, batches_app. f_equal.
          clear. induction bs as [|b0 bs IH]; simpl; [reflexivity|].
          f_equal. exact IH. }
        exists self, (Z.to_nat c). rewrite Hbs. split; [exact Hrun|]. split.
        * rewrite concat_app. simpl. rewrite app_nil_r. exact Hcat.
        * apply Forall_app. split; [|constructor; [exact Hb|constructor]].
          eapply Forall_impl; [exact Hfull|]. intros b' Hb'. simpl in Hb'. lia.
    - destruct (plain_run_unhit job stdin Hft Hn) as (self & Hrun & _ & Hcat & Hall).
      { unfold never_hit. rewrite Htg. exact I. }
      exists self, (length stdin). rewrite firstn_all. auto. }
  destruct Hrun as (self & k & Hrun & Hcat & Hall).
  exists self. split; [exact Hrun|]. intros b Hb.
  rewrite Forall_forall in Hall. specialize (Hall b Hb). simpl in Hall.
  split; [intros ->; simpl in Hall; lia|]. split; [lia|].
  intros e He.
  assert (Hin : e ∈ concat (batches (calls self))).
  { apply list_elem_of_In, in_concat. exists b.
    split; apply list_elem_of_In; assumption. }
  rewrite Hcat in Hin. apply list_elem_of_fmap in Hin as (x & -> & Hx).
  exists x. split; [|reflexivity]. exact (subseteq_take k stdin x Hx).
Qed.

(** Interval 3, a ceiling of 2, four lines. *)
Lemma X1_plaintext_batches_witness :
  let job := {| filetype := plaintext; guesser_pid := 4242;
                analysis_interval := 3; terminate_guessing := Some 2 |} in
  let stdin := (fun c => (c ++ nl)%string) <$> ["a"; "b"; "c"; "d"]%string in
  exists self, execute job stdin = Finished self /\
    forall b, b ∈ batches (calls self) ->
      b <> [] /\ Z.of_nat (length b) <= analysis_interval job /\
      forall e, e ∈ b -> exists x, x ∈ stdin /\ e = Some (Py.slice_to_neg 1 x).
Proof.
  intros job stdin.
  apply (X1_plaintext_batches_never_empty job stdin); [reflexivity | simpl; lia].
Defined.

(** ** The end of the stream in hash mode *)

(** The status-line loop reads to its end a stream none of whose lines
    stops it. *)
Lemma hash_loop_runs job stdin :
  Forall (runs_through job) stdin ->
  forall self, exists self1, for_each (hash_body job) stdin self = Next self1.
Proof.
  induction 1 as [|x stdin [Hns Hlow] _ IH]; intros self; cbn [for_each]; [eauto|].
  destruct (status_line_re_match x) eqn:Hm.
  - destruct (coarse_count_total x Hm) as (count & Hc & _).
    rewrite (hash_body_progress job x count self Hm Hc).
    rewrite (Hlow count) by (apply classify_progress; auto). apply IH.
  - destruct (Py.contains "Session completed" x) eqn:Hs.
    + destruct Hns. apply classify_session. auto.
    + rewrite (hash_body_ignored job x self Hm Hs). apply IH.
Qed.

(** X4. In hash mode, when the stream ends without a "Session completed"
    line and without a count that reaches the ceiling, [handle_close]
    hands the last line read to [process_status_line] whatever that line
    is: a last line that is a status line is handed over twice (by the
    loop and by [handle_close]), and a last line that is no status line is
    handed over although the loop had skipped it. *)
Theorem X4_hash_end_of_stream_forwards_last_line job pre x :
  filetype job = hashvalues ->
  Forall (runs_through job) (pre ++ [x]) ->
  exists self, execute job (pre ++ [x]) = Finished self /\
    calls self = (ProcessStatusLine <$> progress_lines (pre ++ [x])) ++
                 [ProcessStatusLine x; GenReport] /\
    status_lines (calls self) =
      progress_lines pre ++ (if status_line_re_match x then [x; x] else [x]).
Proof.
  intros Hft Hruns.
  destruct (hash_loop_runs job _ Hruns (execute_init job)) as [self1 Hfor].
  destruct (hash_loop_next job Hft _ _ _ Hfor) as (Hcalls & Hline & _).
  rewrite last_snoc in Hline. rewrite init_calls in Hcalls. simpl in Hcalls.
  eexists. split.
  { unfold execute. rewrite Hft, Hfor, Hline. apply handle_close_hash, Hft. }
  cbn. rewrite Hcalls. split; [rewrite <- app_assoc; reflexivity|].
  rewrite !status_lines_app, status_lines_fmap. cbn.
  unfold progress_lines. rewrite filter_app.
  destruct (status_line_re_match x) eqn:Hm.
  - rewrite (filter_cons_True _ x []) by exact Hm. rewrite <- !app_assoc. reflexivity.
  - rewrite (filter_cons_False _ x []) by (rewrite Hm; discriminate).
    rewrite <- !app_assoc. reflexivity.
Qed.

(** No ceiling; the stream ends with a status line, which is handed over
    twice. *)
Lemma X4_hash_end_of_stream_witness :
  let job := {| filetype := hashvalues; guesser_pid := 4242;
                analysis_interval := 1000; terminate_guessing := None |} in
  let pre := ["Loaded 3107 password hashes"; "10g 2000p 0:00:00:02"]%string in
  exists self, execute job (pre ++ [jtr_line]) = Finished self /\
    calls self = (ProcessStatusLine <$> progress_lines (pre ++ [jtr_line])) ++
                 [ProcessStatusLine jtr_line; GenReport] /\
    status_lines (calls self) =
      progress_lines pre ++
      (if status_line_re_match jtr_line then [jtr_line; jtr_line] else [jtr_line]).
Proof.
  intros job pre.
  apply (X4_hash_end_of_stream_forwards_last_line job pre jtr_line); [reflexivity|].
  repeat constructor; try discriminate; intros count [= <-]; reflexivity.
Defined.

(** ** Which processes [kill_guesser] signals *)

Lemma kill_children_prefix os children : forall sent,
  exists pre, pre `prefix_of` children /\
              fst (kill_children os children sent) = sent ++ pre.
Proof.
  induction children as [|c children IH]; intros sent; cbn [kill_children].
  - exists []. split; [apply prefix_nil|]. simpl. rewrite app_nil_r. reflexivity.
  - destruct (child_name os c).
    + exists []. split; [apply prefix_nil|]. simpl. rewrite app_nil_r. reflexivity.
    + destruct (os_kill os c).
      * destruct (IH (sent ++ [c])) as (pre & Hpre & ->).
        exists (c :: pre). split; [apply prefix_cons, Hpre|].
        rewrite <- app_assoc. reflexivity.
      * exists [c]. split; [apply prefix_cons, prefix_nil|reflexivity].
Qed.

(** X6. [kill_guesser] signals nothing but descendants that
    [children(recursive=True)] returned and the root: the processes
    signalled are the first descendants of that list, in its order and
    without a gap, followed at most by the root.  When
    [psutil.Process] does not find the root, no signal is sent at all, not
    even to the root, and the [UnboundLocalError] of the unbound [p] is
    what is logged; when the root is found but listing its children raises
    [psutil.NoSuchProcess], the root alone is signalled. *)
Theorem X6_kill_guesser_signals_only_the_tree os pid :
  (psutil_Process os pid = false ->
   kill_guesser os pid = {| signalled := []; logged := Some UnboundLocalError |}) /\
  (psutil_Process os pid = true -> children_recursive os pid = None ->
   signalled (kill_guesser os pid) = [pid]) /\
  (exists pre,
     pre `prefix_of` default [] (children_recursive os pid) /\
     (signalled (kill_guesser os pid) = pre \/
      signalled (kill_guesser os pid) = pre ++ [pid])) /\
  (forall q, q ∈ signalled (kill_guesser os pid) ->
     q = pid \/ exists children, children_recursive os pid = Some children /\ q ∈ children).
Proof.
  assert (Hshape : exists pre,
     pre `prefix_of` default [] (children_recursive os pid) /\
     (signalled (kill_guesser os pid) = pre \/
      signalled (kill_guesser os pid) = pre ++ [pid])).
  { unfold kill_guesser. destruct (psutil_Process os pid).
    - destruct (children_recursive os pid) as [children|]; simpl default.
      + destruct (kill_children_prefix os children []) as (pre & Hpre & Hfst).
        exists pre. split; [exact Hpre|].
        destruct (kill_children os children []) as [sent [e|]]; simpl in Hfst; subst sent.
        * destruct e; destruct (os_kill os pid); cbn; auto.
        * destruct (os_kill os pid); cbn; auto.
      + exists []. split; [apply prefix_nil|]. destruct (os_kill os pid); cbn; auto.
    - exists []. split; [apply prefix_nil|]. cbn. auto. }
  split; [intros Hp; unfold kill_guesser; rewrite Hp; reflexivity|].
  split.
  { intros Hp Hc. unfold kill_guesser. rewrite Hp, Hc.
    destruct (os_kill os pid); reflexivity. }
  split; [exact Hshape|].
  destruct Hshape as (pre & Hpre & Hsig). intros q Hq.
  assert (Hin : q ∈ pre \/ q = pid).
  { destruct Hsig as [Hs|Hs]; rewrite Hs in Hq; [auto|].
    apply elem_of_app in Hq as [Hq|Hq%list_elem_of_singleton]; auto. }
  destruct Hin as [Hin| ->]; [|auto]. right.
  destruct (children_recursive os pid) as [children|]; simpl in Hpre.
  - exists children. split; [reflexivity|]. destruct Hpre as [k ->].
    apply elem_of_app. auto.
  - destruct Hpre as [k Hk]. destruct pre; [|discriminate Hk].
    apply elem_of_nil in Hin. destruct Hin.
Qed.

(** ** The ceiling in hash mode *)

Lemma coarse_reaches_ceiling v c :
  c <= 1000 * (v / 1000) <-> 1000 * ceil_div c 1000 <= v.
Proof.
  unfold ceil_div.
  pose proof (Z.div_mod v 1000). pose proof (Z.mod_pos_bound v 1000).
  pose proof (Z.div_mod (c + 1000 - 1) 1000).
  pose proof (Z.mod_pos_bound (c + 1000 - 1) 1000).
  lia.
Qed.

(** X7. In hash mode with a ceiling [c], a status line whose second run of
    digits is [d] stops the run exactly when the number [d] denotes has
    reached the first multiple of 1000 that is not below [c]: the count is
    rounded down to a multiple of 1000 before it is compared, so the run
    goes on past the ceiling until the next full thousand is reported. *)
Theorem X7_hash_ceiling_rounds_up_to_thousand job c l :
  terminate_guessing job = Some c ->
  status_line_re_match l = true ->
  exists d, all_digits d = true /\
    candidates_processed_re_first l = Some (d ++ "p")%string /\
    forall self,
      (exists self', hash_body job l self = Break self') <->
      1000 * ceil_div c 1000 <= digits_value d.
Proof.
  intros Htg Hm.
  destruct (coarse_count_floor l Hm) as (d & Hd & Hfirst & Hc).
  exists d. split; [exact Hd|]. split; [exact Hfirst|]. intros self.
  rewrite (hash_body_progress job l _ self Hm Hc).
  rewrite <- coarse_reaches_ceiling.
  unfold ceiling_passed. rewrite Htg, Z.geb_leb.
  destruct (c <=? 1000 * (digits_value d / 1000)) eqn:E.
  - apply Z.leb_le in E. split; eauto.
  - apply Z.leb_gt in E. split; [intros [s [=]]|lia].
Qed.

(** With the ceiling 3500 the line that reports 4008 stops the run; it
    would not with a ceiling above 4000. *)
Lemma X7_hash_ceiling_witness :
  let job := {| filetype := hashvalues; guesser_pid := 4242;
                analysis_interval := 1000; terminate_guessing := Some 3500 |} in
  exists d, all_digits d = true /\
    candidates_processed_re_first jtr_line = Some (d ++ "p")%string /\
    forall self,
      (exists self', hash_body job jtr_line self = Break self') <->
      1000 * ceil_div 3500 1000 <= digits_value d.
Proof.
  intros job.
  apply (X7_hash_ceiling_rounds_up_to_thousand job 3500 jtr_line); reflexivity.
Defined.

(** X8. In hash mode the candidate counter is a multiple of 1000 that is
    not negative after every line of every stream: it starts at 0 and is
    only ever set to a count that lines 147-149 have rounded down. *)
Theorem X8_hash_counter_multiple_of_thousand job stdin :
  Forall (fun v => exists k, 0 <= k /\ v = 1000 * k)
    (counter_trace (hash_body job) stdin (execute_init job)).
Proof.
  unfold counter_trace.
  assert (Hgen : forall self,
    (exists k, 0 <= k /\ candidate_counter self = 1000 * k) ->
    Forall (fun v => exists k, 0 <= k /\ v = 1000 * k)
      (candidate_counter <$> visited (hash_body job) stdin self)).
  { induction stdin as [|x stdin IH]; intros self Hself; [constructor|].
    cbn [visited]. destruct (status_line_re_match x) eqn:Hm.
    - destruct (coarse_count_floor x Hm) as (d & Hd & _ & Hc).
      rewrite (hash_body_progress job x _ self Hm Hc).
      assert (Hk : exists k, 0 <= k /\ 1000 * (digits_value d / 1000) = 1000 * k).
      { eexists. split; [|reflexivity]. apply Z.div_pos; [|lia].
        apply (digits_acc_bound d Hd). }
      destruct (ceiling_passed job _).
      + repeat constructor. exact Hk.
      + rewrite fmap_cons. constructor; [exact Hk|]. apply IH. exact Hk.
    - unfold hash_body. rewrite Hm. cbn [negb].
      destruct (Py.contains "Session completed" x).
      + set (s := match terminate_guessing job with Some _ => _ | None => _ end).
        assert (Hcs : candidate_counter s = candidate_counter self)
          by (subst s; destruct (terminate_guessing job); reflexivity).
        pose proof (handle_close_counter job None s) as Hh.
        destruct (handle_close job None s); cbn; rewrite Hh, Hcs;
          repeat constructor; exact Hself.
      + rewrite fmap_cons. constructor; [exact Hself|]. apply IH. exact Hself. }
  apply Hgen. exists 0. split; [lia|reflexivity].
Qed.

(** ** The lines [status_line_re] accepts *)

Lemma take_skip_digits s : s = (take_digits s ++ skip_digits s)%string.
Proof.
  induction s as [|c s IH]; [reflexivity|]. simpl.
  destruct (Py.is_digit c); simpl; [f_equal; exact IH|reflexivity].
Qed.

Lemma skip_digits_app d c t :
  all_digits d = true -> Py.is_digit c = false ->
  skip_digits (d ++ String c t) = String c t.
Proof.
  intros Hd Hc. induction d as [|a d IH]; simpl in *.
  - rewrite Hc. reflexivity.
  - apply andb_prop in Hd as [-> Hd]. apply IH, Hd.
Qed.

Lemma take_digits_app d c t :
  all_digits d = true -> Py.is_digit c = false ->
  take_digits (d ++ String c t) = d.
Proof.
  intros Hd Hc. induction d as [|a d IH]; simpl in *.
  - rewrite Hc. reflexivity.
  - apply andb_prop in Hd as [-> Hd]. f_equal. apply IH, Hd.
Qed.

(** X9. The lines the loop takes for status lines are exactly the lines
    made of a run of digits, the letter [g], one white-space character, a
    second run of digits, the letter [p] and anything after it (either run
    may be empty).  The count of such a line comes from the second run,
    rounded down to a multiple of 1000; the first run (the guesses) plays
    no part in it. *)
Theorem X9_status_line_grammar :
  (forall l,
     status_line_re_match l = true <->
     exists d1 c d2 rest,
       all_digits d1 = true /\ Py.is_space c = true /\ all_digits d2 = true /\
       l = (d1 ++ String "g" (String c (d2 ++ String "p" rest)))%string) /\
  (forall d1 c d2 rest,
     all_digits d1 = true -> Py.is_space c = true -> all_digits d2 = true ->
     classify (d1 ++ String "g" (String c (d2 ++ String "p" rest))) =
       Progress (1000 * (digits_value d2 / 1000))).
Proof.
  assert (Hshape : forall d1 c d2 rest,
     all_digits d1 = true -> Py.is_space c = true -> all_digits d2 = true ->
     let l := (d1 ++ String "g" (String c (d2 ++ String "p" rest)))%string in
     skip_digits l = String "g" (String c (d2 ++ String "p" rest)) /\
     status_line_re_match l = true).
  { intros d1 c d2 rest H1 Hc H2 l.
    assert (Hs : skip_digits l = String "g" (String c (d2 ++ String "p" rest)))
      by (apply skip_digits_app; [exact H1|reflexivity]).
    split; [exact Hs|]. unfold status_line_re_match. rewrite Hs, Hc.
    rewrite skip_digits_app by (auto; reflexivity). reflexivity. }
  split.
  - intros l. split.
    + unfold status_line_re_match. intros H.
      destruct (skip_digits l) as [|g [|c r]] eqn:Hs; try discriminate.
      apply andb_prop in H as [H Hp]. apply andb_prop in H as [Hg Hc].
      apply Ascii.eqb_eq in Hg. subst g.
      destruct (skip_digits r) as [|p rest] eqn:Hr; [discriminate|].
      simpl in Hp. apply Ascii.eqb_eq in Hp. subst p.
      exists (take_digits l), c, (take_digits r), rest.
      split; [apply take_digits_all|]. split; [exact Hc|].
      split; [apply take_digits_all|].
      rewrite <- Hr, <- take_skip_digits, <- Hs. apply take_skip_digits.
    + intros (d1 & c & d2 & rest & H1 & Hc & H2 & ->).
      apply (Hshape d1 c d2 rest H1 Hc H2).
  - intros d1 c d2 rest H1 Hc H2.
    destruct (Hshape d1 c d2 rest H1 Hc H2) as [Hs Hm].
    apply classify_progress. split; [exact Hm|]. unfold coarse_count.
    rewrite (first_of_status_line _ "g" c (d2 ++ String "p" rest) Hs);
      [|reflexivity|exact Hc|rewrite skip_digits_app by (auto; reflexivity); reflexivity].
    rewrite take_digits_app by (auto; reflexivity).
    rewrite coarse_digits by exact H2. reflexivity.
Qed.

(** ** A ceiling that is not positive *)

(** As long as the counter cannot become equal to the ceiling, the
    plaintext loop runs as it does without a ceiling. *)
Lemma plain_loop_no_ceiling job c stdin : forall self,
  terminate_guessing job = Some c ->
  c <= candidate_counter self \/
  candidate_counter self + Z.of_nat (length stdin) < c ->
  for_each (plaintext_body job) stdin self =
  for_each (plaintext_body (no_ceiling job)) stdin self.
Proof.
  induction stdin as [|x stdin IH]; intros self Htg Hc; [reflexivity|].
  cbn [for_each]. unfold plaintext_body.
  destruct (Py.setitem _ _ _) as [buffer|]; [|reflexivity]. cbn.
  change (ceiling_hit (no_ceiling job) (candidate_counter self + 1)) with false.
  unfold ceiling_hit at 1. rewrite Htg.
  replace (candidate_counter self + 1 =? c) with false
    by (symmetry; apply Z.eqb_neq; simpl length in Hc; lia).
  destruct (index self + 1 =? analysis_interval job);
    apply IH; try exact Htg; cbn; simpl length in Hc; lia.
Qed.

(** X11. A ceiling that is not positive has opposite effects in the two
    modes.  In plaintext mode it is never equal to the counter, so the run
    is the run without a ceiling: every candidate is read and the guesser
    is never killed.  In hash mode every count is at least the ceiling, so
    the first status line stops the run. *)
Theorem X11_ceiling_not_positive job c :
  terminate_guessing job = Some c ->
  c <= 0 ->
  (filetype job = plaintext ->
   forall stdin, execute job stdin = execute (no_ceiling job) stdin) /\
  (forall l self, status_line_re_match l = true ->
     exists self', hash_body job l self = Break self').
Proof.
  intros Htg Hc. split.
  - intros Hft stdin. unfold execute. cbn [filetype no_ceiling]. rewrite Hft.
    change (execute_init (no_ceiling job)) with (execute_init job).
    rewrite (plain_loop_no_ceiling job c stdin (execute_init job) Htg)
      by (left; simpl; lia).
    assert (Hclose : forall s, handle_close job None s = handle_close (no_ceiling job) None s)
      by reflexivity.
    destruct (for_each _ stdin (execute_init job)); auto.
  - intros l self Hm.
    destruct (coarse_count_total l Hm) as (count & Hcount & Hpos).
    rewrite (hash_body_progress job l count self Hm Hcount).
    rewrite (ceiling_passed_ge job c count Htg) by lia. eauto.
Qed.

(** Ceiling 0. *)
Lemma X11_ceiling_not_positive_witness :
  let job := {| filetype := plaintext; guesser_pid := 4242;
                analysis_interval := 2; terminate_guessing := Some 0 |} in
  (filetype job = plaintext ->
   forall stdin, execute job stdin = execute (no_ceiling job) stdin) /\
  (forall l self, status_line_re_match l = true ->
     exists self', hash_body job l self = Break self').
Proof.
  intros job. apply (X11_ceiling_not_positive job 0); [reflexivity | lia].
Defined.
